(** * seed_qdrant.py: the Qdrant seeding script, embedded and verified

    The script connects to a Qdrant server (retrying until a probe
    succeeds), loads [data.json], makes sure the target collection exists,
    turns every record into a point and sends all points in one upsert.

    The embedding follows the source line by line.  Python values are an
    inductive type, dictionaries are finite maps, exceptions are an error
    type, and the Qdrant client library is an interface (a type class over
    the server state), so every theorem holds for whatever the server
    answers.  An in-memory test double of the client is used to run the
    script on concrete inputs. *)

From Stdlib Require Import Floats.PrimFloat Floats.FloatOps Floats.SpecFloat ZArith.
From stdpp Require Import gmap strings list fin_maps.

Set Warnings "-register-all,-inexact-float".

(** ** Python values

    What [json.load] can return: [None], booleans, integers (unbounded),
    floats (binary64), strings, lists and dictionaries with string keys.
    A dictionary is a finite map: [json.load] keeps the last of duplicated
    keys, and the script never looks at the key order.  A string is a
    sequence of characters, one [ascii] each. *)

Inductive value : Type :=
  | VNone
  | VBool (b : bool)
  | VInt (z : Z)
  | VFloat (f : float)
  | VStr (s : string)
  | VList (l : list value)
  | VDict (d : gmap string value).

Abbreviation dict := (gmap string value).

(** ** Exceptions and results *)

Inductive exn : Type :=
  | IndexError
  | KeyError (k : value)
  | TypeError
  | AttributeError
  | ValidationError                (* pydantic rejects a model's arguments *)
  | LibraryError (what : string)   (* an Exception raised by a library or the OS *)
  | KeyboardInterrupt.             (* a BaseException that is not an Exception *)

(** [except Exception] catches everything but the interrupts. *)
Definition is_Exception (e : exn) : bool :=
  match e with
  | KeyboardInterrupt => false
  | _ => true
  end.

Inductive result (A : Type) : Type :=
  | Ok (a : A)
  | Err (e : exn).
Arguments Ok {A} a.
Arguments Err {A} e.

#[global] Instance result_ret : MRet result := fun A a => Ok a.
#[global] Instance result_bind : MBind result := fun A B f r =>
  match r with
  | Ok a => f a
  | Err e => Err e
  end.

Definition is_Ok {A} (r : result A) : bool :=
  match r with
  | Ok _ => true
  | Err _ => false
  end.

Fixpoint mapM {A B} (f : A -> result B) (l : list A) : result (list B) :=
  match l with
  | [] => Ok []
  | x :: l' =>
      match f x with
      | Ok y =>
          match mapM f l' with
          | Ok ys => Ok (y :: ys)
          | Err e => Err e
          end
      | Err e => Err e
      end
  end.

(** ** The Python operations the script uses *)

(** Indexing of a sequence by an integer, negative indices counting from
    the end. *)
Definition py_index {A} (l : list A) (i : Z) : option A :=
  if (0 <=? i)%Z then l !! Z.to_nat i
  else if (0 <=? Z.of_nat (length l) + i)%Z
       then l !! Z.to_nat (Z.of_nat (length l) + i)
       else None.

(** [x[i]] for an integer [i]. *)
Definition getitem_int (x : value) (i : Z) : result value :=
  match x with
  | VList l =>
      match py_index l i with
      | Some v => Ok v
      | None => Err IndexError
      end
  | VStr s =>
      match py_index (String.list_ascii_of_string s) i with
      | Some c => Ok (VStr (String c EmptyString))
      | None => Err IndexError
      end
  | VDict _ => Err (KeyError (VInt i))   (* the keys of a JSON object are strings *)
  | _ => Err TypeError
  end.

(** [x[k]] for a string [k]. *)
Definition getitem_str (x : value) (k : string) : result value :=
  match x with
  | VDict d =>
      match d !! k with
      | Some v => Ok v
      | None => Err (KeyError (VStr k))
      end
  | _ => Err TypeError
  end.

(** [len(x)]. *)
Definition len (x : value) : result nat :=
  match x with
  | VList l => Ok (length l)
  | VStr s => Ok (String.length s)
  | VDict d => Ok (size d)
  | _ => Err TypeError
  end.

(** [d.pop(k)] on a dictionary: the value removed and the dictionary as
    the call leaves it. *)
Definition dict_pop (d : dict) (k : string) : result (value * dict) :=
  match d !! k with
  | Some v => Ok (v, delete k d)
  | None => Err (KeyError (VStr k))
  end.

(** The same on a dictionary with its entries in insertion order, as
    Python keeps them: the entry is taken out and the others stay in
    place.  The keys of a dictionary are distinct. *)
Abbreviation odict := (list (string * value)).



(** [x.pop(k)] for a string [k]: only a dictionary can answer; [list.pop]
    wants an integer and the other values have no [pop]. *)
Definition pop (x : value) (k : string) : result (value * dict) :=
  match x with
  | VDict d => dict_pop d k
  | VList _ => Err TypeError
  | _ => Err AttributeError
  end.

(** [for item in x]: the items a comprehension runs over. *)
Definition iter (x : value) : result (list value) :=
  match x with
  | VList l => Ok l
  | VStr s => Ok ((fun c => VStr (String c EmptyString)) <$> String.list_ascii_of_string s)
  | VDict d => Ok (VStr <$> (map_to_list d).*1)
  | _ => Err TypeError
  end.

(** ** The models of [qdrant_client.models] *)

Module models.

Inductive Distance : Type := COSINE | EUCLID | DOT | MANHATTAN.

Record VectorParams : Type := mkVectorParams {
  size : nat;
  distance : Distance
}.

Record PointStruct : Type := mkPointStruct {
  id : value;
  vector : value;
  payload : dict
}.

End models.

Abbreviation VectorParams := models.VectorParams.
Abbreviation PointStruct := models.PointStruct.

Definition COLLECTION_NAME : string := "nt-cctv-vehicles".

(** ** What a run does: output and client calls, in order *)

Inductive message : Type :=
  | Attempting                     (* "Attempting to connect to Qdrant..." *)
  | Connected                      (* "Successfully connected to Qdrant!" *)
  | ConnectionFailed (e : exn)     (* "Connection failed: e. Retrying in 3 seconds..." *)
  | Inserted (n : nat).            (* "Done! Inserted n points." *)

Inductive event : Type :=
  | Print (m : message)
  | Sleep (seconds : nat)
  | GetCollections (r : result unit)
  | CollectionExists (name : string) (r : result bool)
  | CreateCollection (name : string) (cfg : VectorParams) (r : result unit)
  | Upsert (name : string) (points : list PointStruct) (r : result unit).

Definition is_probe (ev : event) : bool :=
  match ev with GetCollections _ => true | _ => false end.
Definition is_exists (ev : event) : bool :=
  match ev with CollectionExists _ _ => true | _ => false end.
Definition is_create (ev : event) : bool :=
  match ev with CreateCollection _ _ _ => true | _ => false end.
Definition is_upsert (ev : event) : bool :=
  match ev with Upsert _ _ _ => true | _ => false end.

(** The calls that write to the database. *)
Definition is_write (ev : event) : bool := is_create ev || is_upsert ev.

(** What the connection loop can emit: probes, its two messages, sleeps. *)
Definition is_loop_event (ev : event) : bool :=
  match ev with
  | GetCollections _ | Sleep _ | Print Connected | Print (ConnectionFailed _) => true
  | _ => false
  end.

Definition is_sleep (ev : event) : bool :=
  match ev with Sleep _ => true | _ => false end.

(** The number of pauses in a run. *)
Definition sleeps (evs : list event) : nat := length (List.filter is_sleep evs).

(** The client calls of a run, by method and in order. *)
Inductive method : Type :=
  | get_collections_call
  | collection_exists_call
  | create_collection_call
  | upsert_call.

Fixpoint calls_of (evs : list event) : list method :=
  match evs with
  | [] => []
  | GetCollections _ :: evs' => get_collections_call :: calls_of evs'
  | CollectionExists _ _ :: evs' => collection_exists_call :: calls_of evs'
  | CreateCollection _ _ _ :: evs' => create_collection_call :: calls_of evs'
  | Upsert _ _ _ :: evs' => upsert_call :: calls_of evs'
  | _ :: evs' => calls_of evs'
  end.

(** An array whose first element gives no vector size for want of a
    length: the element is no dictionary, or its [vectors] is a number, a
    boolean or [None]. *)
Definition unsized_first (data : value) : bool :=
  match data with
  | VList (VDict d :: _) =>
      match d !! "vectors" with
      | Some v => negb (is_Ok (len v))
      | None => false
      end
  | VList (_ :: _) => true
  | _ => false
  end.

(** What [data[0]] raises when [data] is no array. *)
Definition not_array_error (data : value) : exn :=
  match data with
  | VDict _ => KeyError (VInt 0)
  | VStr EmptyString => IndexError
  | _ => TypeError
  end.

(** How a run ends: normally, with an exception, or not at all within the
    number of loop iterations allowed. *)
Inductive outcome (A : Type) : Type :=
  | Done (a : A)
  | Raised (e : exn)
  | Looping.
Arguments Done {A} a.
Arguments Raised {A} e.
Arguments Looping {A}.

(** ** The client interface

    [S] is the state of the world behind the client: the server, the
    network.  Every method may change it and may raise.  [point_ok] is the
    validation [PointStruct(...)] runs on its arguments, and [vector_of]
    what it makes of an accepted [vector] argument: the model normalises
    it (the integers of a list of numbers become floats), while the
    identifier and the payload are kept as they are passed. *)

Class QdrantClient (S : Type) : Type := {
  get_collections : S -> result unit * S;
  collection_exists : string -> S -> result bool * S;
  create_collection : string -> VectorParams -> S -> result unit * S;
  upsert : string -> list PointStruct -> S -> result unit * S;
  point_ok : value -> value -> dict -> bool;
  vector_of : value -> value
}.

Section Script.

Context {S : Type} `{!QdrantClient S}.

(** *** The monad of the script: server state, emitted events, outcome *)

Definition M (A : Type) : Type := S -> list event * S * outcome A.

Definition ret {A} (a : A) : M A := fun s => ([], s, Done a).

Definition bind {A B} (m : M A) (f : A -> M B) : M B := fun s =>
  match m s with
  | (evs1, s1, Done a) =>
      match f a s1 with
      | (evs2, s2, r) => (evs1 ++ evs2, s2, r)
      end
  | (evs1, s1, Raised e) => (evs1, s1, Raised e)
  | (evs1, s1, Looping) => (evs1, s1, Looping)
  end.

Definition raise {A} (e : exn) : M A := fun s => ([], s, Raised e).

Definition spin {A} : M A := fun s => ([], s, Looping).

(** A pure Python operation: its value, or its exception raised. *)
Definition lift {A} (r : result A) : M A :=
  match r with
  | Ok a => ret a
  | Err e => raise e
  end.

Definition print (m : message) : M unit := fun s => ([Print m], s, Done tt).

Definition sleep (seconds : nat) : M unit := fun s => ([Sleep seconds], s, Done tt).

(** A client call inside [try]: the call is made and recorded, what it
    raised is handed to the handler. *)
Definition attempt {A} (f : S -> result A * S) (ev : result A -> event)
  : M (result A) := fun s =>
  match f s with
  | (r, s') => ([ev r], s', Done r)
  end.

(** A client call outside any [try]: what it raises propagates. *)
Definition call {A} (f : S -> result A * S) (ev : result A -> event) : M A :=
  bind (attempt f ev) lift.

Notation "x <- m ;; k" := (bind m (fun x => k))
  (at level 100, m at next level, right associativity).
Notation "m ;;; k" := (bind m (fun _ => k))
  (at level 100, right associativity).

(** *** Lines 24-32: the connection loop *)

Fixpoint connect (fuel : nat) : M unit :=
  match fuel with
  | 0 => spin
  | Datatypes.S fuel' =>
      r <- attempt get_collections GetCollections ;;
      match r with
      | Ok _ => print Connected
      | Err e =>
          if is_Exception e
          then print (ConnectionFailed e) ;;; sleep 3 ;;; connect fuel'
          else raise e
      end
  end.

(** *** Lines 47-53: one record to one point *)

(** [PointStruct(id=.., vector=.., payload=..)]. *)
Definition new_point (i v : value) (p : dict) : result PointStruct :=
  if point_ok i v p then Ok (models.mkPointStruct i (vector_of v) p)
  else Err ValidationError.

(** The two [pop]s run first, in this order, and the dictionary they
    leave is the payload.  The items [json.load] builds share nothing, so
    popping from one leaves the others as they are. *)
Definition to_point (item : value) : result PointStruct :=
  match pop item "id" with
  | Ok (i, item1) =>
      match dict_pop item1 "vectors" with
      | Ok (v, item2) => new_point i v item2
      | Err e => Err e
      end
  | Err e => Err e
  end.


Definition to_points (data : value) : result (list PointStruct) :=
  match iter data with
  | Ok items => mapM to_point items
  | Err e => Err e
  end.

(** *** Lines 38-44, "2. Setup Collection"

    The vector size is read first, before the server is asked
    anything. *)

Definition vector_size_of (data : value) : result nat :=
  match getitem_int data 0 with
  | Ok first =>
      match getitem_str first "vectors" with
      | Ok vectors => len vectors
      | Err e => Err e
      end
  | Err e => Err e
  end.

Definition setup_collection (data : value) : M unit :=
  vector_size <- lift (vector_size_of data) ;;
  found <- call (collection_exists COLLECTION_NAME)
                (CollectionExists COLLECTION_NAME) ;;
  if negb found
  then
    let cfg := models.mkVectorParams vector_size models.COSINE in
    call (create_collection COLLECTION_NAME cfg)
         (CreateCollection COLLECTION_NAME cfg)
  else ret tt.

(** *** Lines 46-56, "3. Batch Upload" *)

Definition batch_upload (data : value) : M unit :=
  points <- lift (to_points data) ;;
  call (upsert COLLECTION_NAME points) (Upsert COLLECTION_NAME points) ;;;
  print (Inserted (length points)).

(** *** Lines 21-56: [seed_data]

    [data_json] is what [open] and [json.load] give for [data.json]
    (lines 34-36, "1. Load JSON"). *)

Definition seed_data (fuel : nat) (data_json : result value) : M unit :=
  print Attempting ;;;
  connect fuel ;;;
  data <- lift data_json ;;
  setup_collection data ;;;
  batch_upload data.

(** *** Reading a run *)

Definition events {A} (run : list event * S * outcome A) : list event := run.1.1.
Definition final {A} (run : list event * S * outcome A) : S := run.1.2.
Definition ending {A} (run : list event * S * outcome A) : outcome A := run.2.

(** The number of connection attempts in a run. *)
Definition attempts (evs : list event) : nat := length (List.filter is_probe evs).

(** The server as [k] probes leave it, and what probe number [k]
    (counting from zero) answers. *)
Fixpoint after_probes (k : nat) (s : S) : S :=
  match k with
  | 0 => s
  | Datatypes.S k' => after_probes k' (get_collections s).2
  end.

Definition probe_result (k : nat) (s : S) : result unit :=
  (get_collections (after_probes k s)).1.

(** Probe [k] fails and the loop's handler catches the failure. *)
Definition probe_fails (k : nat) (s : S) : bool :=
  match probe_result k s with
  | Ok _ => false
  | Err e => is_Exception e
  end.

(** *** The effect of one event on the server

    Output and sleeping leave the server alone; a recorded call is the
    client's method run on the current state, with the recorded
    answer. *)

Inductive step : S -> event -> S -> Prop :=
  | step_print s m : step s (Print m) s
  | step_sleep s n : step s (Sleep n) s
  | step_probe s s' r :
      get_collections s = (r, s') -> step s (GetCollections r) s'
  | step_exists s s' name r :
      collection_exists name s = (r, s') -> step s (CollectionExists name r) s'
  | step_create s s' name cfg r :
      create_collection name cfg s = (r, s') ->
      step s (CreateCollection name cfg r) s'
  | step_upsert s s' name points r :
      upsert name points s = (r, s') -> step s (Upsert name points r) s'.

Inductive trace : S -> list event -> S -> Prop :=
  | trace_nil s : trace s [] s
  | trace_cons s ev s1 evs s2 :
      step s ev s1 -> trace s1 evs s2 -> trace s (ev :: evs) s2.

(** *** Input records

    A record the transformer accepts, with a vector of length [n]: a
    dictionary with [id] and [vectors] out of which [PointStruct] makes a
    point. *)
Definition input_record (n : nat) (item : value) : bool :=
  match item with
  | VDict d =>
      match d !! "id", d !! "vectors" with
      | Some i, Some v =>
          match len v with
          | Ok m => (m =? n) && point_ok i v (delete "vectors" (delete "id" d))
          | Err _ => false
          end
      | _, _ => false
      end
  | _ => false
  end.

(** A record without [id] or without [vectors]. *)
Definition lacks_field (item : value) : bool :=
  match item with
  | VDict d =>
      match d !! "id", d !! "vectors" with
      | Some _, Some _ => false
      | _, _ => true
      end
  | _ => true
  end.

(** An array from which no vector size can be read: it is empty, or its
    first record has no [vectors]. *)
Definition no_first_vectors (data : value) : bool :=
  match data with
  | VList [] => true
  | VList (VDict d :: _) =>
      match d !! "vectors" with
      | Some _ => false
      | None => true
      end
  | _ => false
  end.

(** *** The strong reading of the malformed-record rule

    A record without [id] or [vectors] makes the transformation fail, no
    upsert is made, and the whole database is as before: whatever part
    [db] of the server the read-only calls (probe, existence check) leave
    alone is the same after the run. *)
Definition malformed_leaves_database (fuel : nat) (recs : list value) (s : S)
  : Prop :=
  existsb lacks_field recs = true ->
  (exists e, to_points (VList recs) = Err e) /\
  Forall (fun ev => is_upsert ev = false)
         (events (seed_data fuel (Ok (VList recs)) s)) /\
  (forall (A : Type) (db : S -> A),
      (forall s1, db (get_collections s1).2 = db s1) ->
      (forall name s1, db (collection_exists name s1).2 = db s1) ->
      db (final (seed_data fuel (Ok (VList recs)) s)) = db s).

End Script.

(** ** A test double of the client

    An in-memory server for running the script: the first [refusals] probes
    are refused (all of them when [unreachable]), collections keep their
    configuration and the points sent to them in arrival order.  Creating
    an existing collection and writing to a missing one or with a vector of
    the wrong length are rejected, as the server does. *)

Module Mock.

Record server : Type := mkServer {
  refusals : nat;
  unreachable : bool;
  collections : gmap string (VectorParams * list PointStruct)
}.

Definition refused : exn := LibraryError "connection refused".

Definition probe (s : server) : result unit * server :=
  if unreachable s then (Err refused, s)
  else
    match refusals s with
    | 0 => (Ok tt, s)
    | Datatypes.S n => (Err refused, mkServer n false (collections s))
    end.

Definition has (name : string) (s : server) : result bool * server :=
  match collections s !! name with
  | Some _ => (Ok true, s)
  | None => (Ok false, s)
  end.

Definition create (name : string) (cfg : VectorParams) (s : server)
  : result unit * server :=
  match collections s !! name with
  | Some _ => (Err (LibraryError "409 conflict"), s)
  | None =>
      (Ok tt,
       mkServer (refusals s) (unreachable s) (<[name := (cfg, [])]> (collections s)))
  end.

Definition fits (cfg : VectorParams) (p : PointStruct) : bool :=
  match len (models.vector p) with
  | Ok n => n =? models.size cfg
  | Err _ => false
  end.

Definition write (name : string) (points : list PointStruct) (s : server)
  : result unit * server :=
  match collections s !! name with
  | Some (cfg, stored) =>
      if forallb (fits cfg) points
      then (Ok tt,
            mkServer (refusals s) (unreachable s)
                     (<[name := (cfg, stored ++ points)]> (collections s)))
      else (Err (LibraryError "400 bad request"), s)
  | None => (Err (LibraryError "404 not found"), s)
  end.

Definition is_number (v : value) : bool :=
  match v with
  | VFloat _ | VInt _ => true
  | _ => false
  end.

Definition accepts (i v : value) (p : dict) : bool :=
  match i, v with
  | (VInt _ | VStr _), VList xs => forallb is_number xs
  | _, _ => false
  end.

(** An integer as the float nearest to it (the test double is meant
    for integers within the range of a float). *)
Definition as_float (z : Z) : float :=
  SF2Prim (binary_normalize prec emax z 0 false).

(** The vector as the model holds it: in a list, integers become
    floats. *)
Definition normalise (v : value) : value :=
  match v with
  | VList xs =>
      VList ((fun x => match x with VInt z => VFloat (as_float z) | _ => x end) <$> xs)
  | _ => v
  end.

#[global] Instance client : QdrantClient server := {|
  get_collections := probe;
  collection_exists := has;
  create_collection := create;
  upsert := write;
  point_ok := accepts;
  vector_of := normalise
|}.

Definition fresh (n : nat) : server := mkServer n false ∅.

Definition down : server := mkServer 0 true ∅.

(** A server that already holds the target collection, for vectors of
    length [n]. *)
Definition seeded (n : nat) : server :=
  mkServer 0 false
    {[ COLLECTION_NAME := (models.mkVectorParams n models.EUCLID, []) ]}.

(** The two records of the specification's worked example, and
    variations of them. *)
Definition record (i : Z) (x y : float) (cam : string) : value :=
  VDict (<["id" := VInt i]>
         (<["vectors" := VList [VFloat x; VFloat y]]>
          (<["cam" := VStr cam]> ∅))).

Definition example : value :=
  VList [record 1 0.1 0.2 "A"; record 2 0.3 0.4 "B"].

Definition no_id : value :=
  VDict (<["vectors" := VList [VFloat 0.3; VFloat 0.4]]> (<["cam" := VStr "B"]> ∅)).

Definition no_vectors : value :=
  VDict (<["id" := VInt 2]> (<["cam" := VStr "B"]> ∅)).

(** The points the specification expects for [example]. *)
Definition example_points : list PointStruct :=
  [ models.mkPointStruct (VInt 1) (VList [VFloat 0.1; VFloat 0.2])
      {[ "cam" := VStr "A" ]};
    models.mkPointStruct (VInt 2) (VList [VFloat 0.3; VFloat 0.4])
      {[ "cam" := VStr "B" ]} ].

(** Two things to look at in a server: the configuration of a
    collection, and the points stored in it. *)
Definition config_of (name : string) (s : server) : option VectorParams :=
  fst <$> collections s !! name.

Definition stored_in (name : string) (s : server) : list PointStruct :=
  match collections s !! name with
  | Some (_, points) => points
  | None => []
  end.

End Mock.


(** ** A scripted client

    A second test double, for the answers the in-memory server never
    gives: the probes answer what [probes] lists, in order (and succeed
    when the list is used up), the other three methods answer what the
    script says, whatever they are asked. *)

Module Stub.

Record script : Type := mkScript {
  probes : list (result unit);
  found : result bool;
  created : result unit;
  written : result unit
}.

Definition probe (s : script) : result unit * script :=
  match probes s with
  | [] => (Ok tt, s)
  | r :: rest => (r, mkScript rest (found s) (created s) (written s))
  end.

#[global] Instance client : QdrantClient script := {|
  get_collections := probe;
  collection_exists := fun _ s => (found s, s);
  create_collection := fun _ _ s => (created s, s);
  upsert := fun _ _ s => (written s, s);
  point_ok := Mock.accepts;
  vector_of := Mock.normalise
|}.

Definition timeout : exn := LibraryError "timed out".

(** A record with a vector of length 3, and one that [PointStruct]
    rejects (its identifier is a float). *)
Definition wide : value :=
  VDict (<["id" := VInt 3]>
         (<["vectors" := VList [VFloat 0.5; VFloat 0.6; VFloat 0.7]]> ∅)).

Definition float_id : value :=
  VDict (<["id" := VFloat 1.5]>
         (<["vectors" := VList [VFloat 0.1; VFloat 0.2]]> ∅)).

(** A record whose [vectors] is a number. *)
Definition scalar_vectors : value :=
  VDict (<["id" := VInt 1]> (<["vectors" := VInt 7]> ∅)).




(** Three scripts: the existence check times out; the creation call
    times out; the second probe is interrupted from outside. *)
Definition check_times_out : script :=
  mkScript [] (Err timeout) (Ok tt) (Ok tt).

Definition creation_times_out : script :=
  mkScript [] (Ok false) (Err timeout) (Ok tt).

Definition interrupted : script :=
  mkScript [Err timeout; Err KeyboardInterrupt] (Ok true) (Ok tt) (Ok tt).

End Stub.

(** * Properties *)

Section Properties.

Context {S : Type} `{!QdrantClient S}.

Implicit Types (s : S) (evs : list event) (fuel : nat).

(** ** The connection loop *)

Lemma attempts_failed_round e evs :
  attempts (GetCollections (Err e) :: Print (ConnectionFailed e) :: Sleep 3 :: evs)
  = Datatypes.S (attempts evs).
Proof. reflexivity. Qed.

Lemma connect_0 s : connect 0 s = ([], s, Looping).
Proof. reflexivity. Qed.

(** One iteration, by what the probe answers. *)
Lemma connect_S_ok fuel s s' :
  get_collections s = (Ok tt, s') ->
  connect (Datatypes.S fuel) s
  = ([GetCollections (Ok tt); Print Connected], s', Done tt).
Proof.
  intros Hp. cbn [connect]. unfold bind, attempt, print. rewrite Hp. reflexivity.
Qed.

Lemma connect_S_caught fuel s s' e :
  get_collections s = (Err e, s') -> is_Exception e = true ->
  connect (Datatypes.S fuel) s
  = (GetCollections (Err e) :: Print (ConnectionFailed e) :: Sleep 3
       :: events (connect fuel s'),
     final (connect fuel s'), ending (connect fuel s')).
Proof.
  intros Hp He. cbn [connect]. unfold bind at 1, attempt. rewrite Hp, He.
  unfold bind, print, sleep, events, final, ending.
  destruct (connect fuel s') as [[evs s2] [[]| |]]; reflexivity.
Qed.

Lemma connect_S_uncaught fuel s s' e :
  get_collections s = (Err e, s') -> is_Exception e = false ->
  connect (Datatypes.S fuel) s = ([GetCollections (Err e)], s', Raised e).
Proof.
  intros Hp He. cbn [connect]. unfold bind, attempt, raise. rewrite Hp, He.
  reflexivity.
Qed.

Lemma probe_fails_inv k s :
  probe_fails k s = true ->
  exists e, probe_result k s = Err e /\ is_Exception e = true.
Proof.
  unfold probe_fails. destruct (probe_result k s) as [|e]; [done | eauto].
Qed.

(** While the probes fail the loop goes on: after [n] failed probes,
    [n] iterations are used up and the loop is still running. *)
Lemma connect_still_looping n s :
  (forall k, k < n -> probe_fails k s = true) ->
  ending (connect n s) = Looping /\
  final (connect n s) = after_probes n s /\
  attempts (events (connect n s)) = n.
Proof.
  revert s. induction n as [|n IH]; intros s Hfail; [done |].
  destruct (probe_fails_inv 0 s) as (e & He & Hexc); [apply Hfail; lia |].
  unfold probe_result in He. cbn [after_probes] in He.
  destruct (get_collections s) as [r s1] eqn:Hp. cbn in He. subst r.
  rewrite (connect_S_caught n s s1 e Hp Hexc).
  destruct (IH s1) as (Hend & Hfin & Hatt).
  { intros k Hk. specialize (Hfail (Datatypes.S k) ltac:(lia)).
    unfold probe_fails, probe_result in *. cbn [after_probes] in Hfail.
    by rewrite Hp in Hfail. }
  cbn [after_probes]. rewrite Hp. cbn [events final ending fst snd].
  rewrite attempts_failed_round, Hatt. done.
Qed.

(** After [n] failed probes and a successful one, any run with more than
    [n] iterations allowed ends after exactly [n + 1] attempts. *)
Lemma connect_succeeds n s fuel :
  (forall k, k < n -> probe_fails k s = true) ->
  probe_result n s = Ok tt ->
  n < fuel ->
  ending (connect fuel s) = Done tt /\
  final (connect fuel s) = after_probes (Datatypes.S n) s /\
  attempts (events (connect fuel s)) = n + 1.
Proof.
  revert s fuel. induction n as [|n IH]; intros s fuel Hfail Hok Hlt.
  - destruct fuel as [|fuel]; [lia |].
    unfold probe_result in Hok. cbn [after_probes] in *.
    destruct (get_collections s) as [r s1] eqn:Hp. cbn in Hok. subst r.
    by rewrite (connect_S_ok fuel s s1 Hp).
  - destruct fuel as [|fuel]; [lia |].
    destruct (probe_fails_inv 0 s) as (e & He & Hexc); [apply Hfail; lia |].
    unfold probe_result in He, Hok. cbn [after_probes] in He, Hok.
    destruct (get_collections s) as [r s1] eqn:Hp. cbn in He. subst r.
    rewrite (connect_S_caught fuel s s1 e Hp Hexc).
    destruct (IH s1 fuel) as (Hend & Hfin & Hatt); [| done | lia |].
    { intros k Hk. specialize (Hfail (Datatypes.S k) ltac:(lia)).
      unfold probe_fails, probe_result in *. cbn [after_probes] in Hfail.
      by rewrite Hp in Hfail. }
    cbn [after_probes]. rewrite Hp. cbn [events final ending fst snd].
    rewrite attempts_failed_round, Hatt. split_and!; [done | done | lia].
Qed.

(** The loop talks to the server through probes only. *)
Lemma connect_events fuel s :
  Forall (fun ev => is_loop_event ev = true) (events (connect fuel s)).
Proof.
  revert s. induction fuel as [|fuel IH]; intros s; [constructor |].
  destruct (get_collections s) as [[[]|e] s1] eqn:Hp.
  - rewrite (connect_S_ok fuel s s1 Hp). repeat constructor.
  - destruct (is_Exception e) eqn:He.
    + rewrite (connect_S_caught fuel s s1 e Hp He). cbn.
      repeat (constructor; [done |]). apply IH.
    + rewrite (connect_S_uncaught fuel s s1 e Hp He). repeat constructor.
Qed.

(** What the loop does to the server is what its probes do. *)
Lemma connect_trace fuel s :
  trace s (events (connect fuel s)) (final (connect fuel s)).
Proof.
  revert s. induction fuel as [|fuel IH]; intros s; [constructor |].
  destruct (get_collections s) as [[[]|e] s1] eqn:Hp.
  - rewrite (connect_S_ok fuel s s1 Hp). cbn.
    eapply trace_cons; [by apply step_probe |].
    eapply trace_cons; [apply step_print | apply trace_nil].
  - destruct (is_Exception e) eqn:He.
    + rewrite (connect_S_caught fuel s s1 e Hp He). cbn.
      eapply trace_cons; [by apply step_probe |].
      eapply trace_cons; [apply step_print |].
      eapply trace_cons; [apply step_sleep | apply IH].
    + rewrite (connect_S_uncaught fuel s s1 e Hp He). cbn.
      eapply trace_cons; [by apply step_probe | apply trace_nil].
Qed.

Lemma loop_event_quiet ev :
  is_loop_event ev = true ->
  is_exists ev = false /\ is_create ev = false /\ is_upsert ev = false /\
  forall n, ev ≠ Print (Inserted n).
Proof. by destruct ev as [[]| | | | |]. Qed.

(** ** The stages after the connection, in closed form *)

Lemma setup_collection_run data s :
  setup_collection data s =
  match vector_size_of data with
  | Err e => ([], s, Raised e)
  | Ok n =>
      match collection_exists COLLECTION_NAME s with
      | (Err e, s1) => ([CollectionExists COLLECTION_NAME (Err e)], s1, Raised e)
      | (Ok true, s1) => ([CollectionExists COLLECTION_NAME (Ok true)], s1, Done tt)
      | (Ok false, s1) =>
          match create_collection COLLECTION_NAME
                  (models.mkVectorParams n models.COSINE) s1 with
          | (Ok _, s2) =>
              ([CollectionExists COLLECTION_NAME (Ok false);
                CreateCollection COLLECTION_NAME
                  (models.mkVectorParams n models.COSINE) (Ok tt)],
               s2, Done tt)
          | (Err e, s2) =>
              ([CollectionExists COLLECTION_NAME (Ok false);
                CreateCollection COLLECTION_NAME
                  (models.mkVectorParams n models.COSINE) (Err e)],
               s2, Raised e)
          end
      end
  end.
Proof.
  unfold setup_collection, call, attempt, bind, lift, ret, raise.
  destruct (vector_size_of data) as [n|e]; [| done].
  destruct (collection_exists COLLECTION_NAME s) as [[[]|e] s1]; [| | done].
  - done.
  - cbn. destruct (create_collection _ _ s1) as [[[]|e] s2]; done.
Qed.

Lemma batch_upload_run data s :
  batch_upload data s =
  match to_points data with
  | Err e => ([], s, Raised e)
  | Ok points =>
      match upsert COLLECTION_NAME points s with
      | (Ok _, s1) =>
          ([Upsert COLLECTION_NAME points (Ok tt); Print (Inserted (length points))],
           s1, Done tt)
      | (Err e, s1) => ([Upsert COLLECTION_NAME points (Err e)], s1, Raised e)
      end
  end.
Proof.
  unfold batch_upload, call, attempt, bind, lift, ret, raise, print.
  destruct (to_points data) as [points|e]; [| done].
  destruct (upsert COLLECTION_NAME points s) as [[[]|e] s1]; done.
Qed.

Lemma seed_data_run fuel data_json s :
  seed_data fuel data_json s =
  match connect fuel s with
  | (evs1, s1, Done _) =>
      match data_json with
      | Err e => (Print Attempting :: evs1, s1, Raised e)
      | Ok data =>
          match setup_collection data s1 with
          | (evs2, s2, Done _) =>
              match batch_upload data s2 with
              | (evs3, s3, r) => (Print Attempting :: evs1 ++ evs2 ++ evs3, s3, r)
              end
          | (evs2, s2, Raised e) => (Print Attempting :: evs1 ++ evs2, s2, Raised e)
          | (evs2, s2, Looping) => (Print Attempting :: evs1 ++ evs2, s2, Looping)
          end
      end
  | (evs1, s1, Raised e) => (Print Attempting :: evs1, s1, Raised e)
  | (evs1, s1, Looping) => (Print Attempting :: evs1, s1, Looping)
  end.
Proof.
  unfold seed_data, bind, print, lift, ret, raise. cbn.
  destruct (connect fuel s) as [[evs1 s1] [[]|e|]]; [| done | done].
  destruct data_json as [data|e]; [| by rewrite app_nil_r].
  cbn. destruct (setup_collection data s1) as [[evs2 s2] [[]|e|]]; [| done | done].
  by destruct (batch_upload data s2) as [[evs3 s3] r].
Qed.

(** ** Runs and the server

    The events of a run account for everything the run does to the
    server: replaying them from the initial state leads to the final
    state. *)

Lemma trace_app s evs1 s1 evs2 s2 :
  trace s evs1 s1 -> trace s1 evs2 s2 -> trace s (evs1 ++ evs2) s2.
Proof.
  induction 1 as [|s ev s' evs1 s1 Hstep _ IH]; [done |].
  intros Hrest. cbn. eapply trace_cons; eauto.
Qed.

Lemma setup_collection_trace data s :
  trace s (events (setup_collection data s)) (final (setup_collection data s)).
Proof.
  rewrite setup_collection_run.
  destruct (vector_size_of data) as [n|e]; [| apply trace_nil].
  destruct (collection_exists COLLECTION_NAME s) as [[[]|e] s1] eqn:Hex; cbn.
  - eapply trace_cons; [by apply step_exists | apply trace_nil].
  - destruct (create_collection _ _ s1) as [[[]|e] s2] eqn:Hcr; cbn.
    all: eapply trace_cons; [by apply step_exists |].
    all: eapply trace_cons; [by apply step_create | apply trace_nil].
  - eapply trace_cons; [by apply step_exists | apply trace_nil].
Qed.

Lemma batch_upload_trace data s :
  trace s (events (batch_upload data s)) (final (batch_upload data s)).
Proof.
  rewrite batch_upload_run.
  destruct (to_points data) as [points|e]; [| apply trace_nil].
  destruct (upsert COLLECTION_NAME points s) as [[[]|e] s1] eqn:Hup; cbn.
  - eapply trace_cons; [by apply step_upsert |].
    eapply trace_cons; [apply step_print | apply trace_nil].
  - eapply trace_cons; [by apply step_upsert | apply trace_nil].
Qed.

Lemma seed_data_trace fuel data_json s :
  trace s (events (seed_data fuel data_json s))
          (final (seed_data fuel data_json s)).
Proof.
  rewrite seed_data_run.
  pose proof (connect_trace fuel s) as Hc.
  destruct (connect fuel s) as [[evs1 s1] [[]|e|]]; cbn in *.
  2,3: eapply trace_cons; [apply step_print | done].
  destruct data_json as [data|e]; cbn.
  2: eapply trace_cons; [apply step_print | done].
  pose proof (setup_collection_trace data s1) as Hs.
  destruct (setup_collection data s1) as [[evs2 s2] [[]|e|]]; cbn in *.
  2,3: eapply trace_cons; [apply step_print | by eapply trace_app].
  pose proof (batch_upload_trace data s2) as Hb.
  destruct (batch_upload data s2) as [[evs3 s3] r]; cbn in *.
  eapply trace_cons; [apply step_print |].
  eapply trace_app; [done |]. by eapply trace_app.
Qed.

(** A frame rule: what no event of the run changes is the same before
    and after the run. *)
Lemma trace_frame {A} (obs : S -> A) s evs s' :
  trace s evs s' ->
  (forall ev s1 s2, ev ∈ evs -> step s1 ev s2 -> obs s2 = obs s1) ->
  obs s' = obs s.
Proof.
  induction 1 as [|s ev s1 evs s2 Hstep _ IH]; [done |].
  intros Hkeep. rewrite IH.
  - apply (Hkeep ev); [left | done].
  - intros ev' t1 t2 Hin. apply Hkeep. by right.
Qed.

(** The same frame rule, by the methods the run calls. *)
Lemma run_frame {A} (obs : S -> A) s evs s' :
  trace s evs s' ->
  (forall s1, obs (get_collections s1).2 = obs s1) ->
  (forall name s1, obs (collection_exists name s1).2 = obs s1) ->
  (Forall (fun ev => is_create ev = false) evs \/
   forall name cfg s1, obs (create_collection name cfg s1).2 = obs s1) ->
  (Forall (fun ev => is_upsert ev = false) evs \/
   forall name points s1, obs (upsert name points s1).2 = obs s1) ->
  obs s' = obs s.
Proof.
  intros Htrace Hprobe Hexists Hcreate Hupsert.
  apply (trace_frame obs s evs s' Htrace).
  intros ev s1 s2 Hin Hstep.
  destruct Hstep as [| |? ? ? Heq|? ? ? ? Heq|? ? ? ? ? Heq|? ? ? ? ? Heq].
  - done.
  - done.
  - by rewrite <- (Hprobe s0), Heq.
  - by rewrite <- (Hexists name s0), Heq.
  - destruct Hcreate as [Hno|Hkeep].
    + by apply (proj1 (Forall_forall _ _) Hno) in Hin.
    + by rewrite <- (Hkeep name cfg s0), Heq.
  - destruct Hupsert as [Hno|Hkeep].
    + by apply (proj1 (Forall_forall _ _) Hno) in Hin.
    + by rewrite <- (Hkeep name points s0), Heq.
Qed.

(** ** Case analysis of a run *)

Ltac run_step :=
  first
    [ rewrite setup_collection_run in *
    | rewrite batch_upload_run in *
    | match goal with
      | |- context [connect ?f ?s] =>
          let Hloop := fresh "Hloop" in
          pose proof (connect_events f s) as Hloop;
          destruct (connect f s) as [[? ?] [[]|?|]] eqn:?
      | |- context [match vector_size_of ?d with _ => _ end] =>
          destruct (vector_size_of d) eqn:?
      | |- context [match to_points ?d with _ => _ end] =>
          destruct (to_points d) eqn:?
      | |- context [match collection_exists ?n ?s with _ => _ end] =>
          destruct (collection_exists n s) as [[[]|?] ?] eqn:?
      | |- context [match create_collection ?n ?c ?s with _ => _ end] =>
          destruct (create_collection n c s) as [[[]|?] ?] eqn:?
      | |- context [match upsert ?n ?p ?s with _ => _ end] =>
          destruct (upsert n p s) as [[[]|?] ?] eqn:?
      | |- context [match ?r with Ok _ => _ | Err _ => _ end] =>
          is_var r; destruct r
      end ].

Ltac run_cases :=
  rewrite seed_data_run in *; repeat run_step;
  unfold events, final, ending in *; cbn [fst snd] in *.

(** An event of the connection loop is no call but a probe. *)
Ltac not_in_loop :=
  match goal with
  | Hloop : Forall _ ?evs, Hin : _ ∈ ?evs |- _ =>
      apply (proj1 (Forall_forall _ _) Hloop) in Hin; cbn in Hin;
      discriminate
  end.

Ltac split_in H :=
  repeat (rewrite ?elem_of_cons, ?elem_of_app, ?elem_of_nil in H);
  destruct_or?; simplify_eq; try done; try not_in_loop.

Lemma getitem_int_first first rest : getitem_int (VList (first :: rest)) 0 = Ok first.
Proof. reflexivity. Qed.

Lemma getitem_int_empty : getitem_int (VList []) 0 = Err IndexError.
Proof. reflexivity. Qed.

Lemma vector_size_of_inv data n :
  vector_size_of data = Ok n ->
  exists first rest d vectors,
    data = VList (first :: rest) /\ first = VDict d /\
    d !! "vectors" = Some vectors /\ len vectors = Ok n.
Proof.
  unfold vector_size_of. intros Hsize.
  destruct data as [| | | |str|[|first rest]|]; try done.
  - unfold getitem_int, py_index in Hsize. cbn [Z.leb Z.compare Z.to_nat] in Hsize.
    destruct str as [|c str]; [done |]. by cbn in Hsize.
  - rewrite getitem_int_first in Hsize.
    destruct first as [| | | | | |d]; try done.
    unfold getitem_str in Hsize.
    destruct (d !! "vectors") as [vectors|] eqn:Hv; [| done].
    by exists (VDict d), rest, d, vectors.
Qed.

(** ** Creating the collection *)

(** C3. Every collection-creation call of a run names the target
    collection, asks for the cosine metric and passes as vector size the
    length of the [vectors] field of the first input record; and whenever
    the existence check answers that the collection is absent, the
    creation call is made. *)
Theorem created_with_first_vector_length fuel data_json s :
  (forall name cfg cr,
      CreateCollection name cfg cr ∈ events (seed_data fuel data_json s) ->
      name = COLLECTION_NAME /\
      models.distance cfg = models.COSINE /\
      exists first rest d vectors,
        data_json = Ok (VList (first :: rest)) /\ first = VDict d /\
        d !! "vectors" = Some vectors /\
        len vectors = Ok (models.size cfg)) /\
  (CollectionExists COLLECTION_NAME (Ok false)
     ∈ events (seed_data fuel data_json s) ->
   exists cfg cr,
     CreateCollection COLLECTION_NAME cfg cr ∈ events (seed_data fuel data_json s)).
Proof.
  split.
  - intros name cfg cr. run_cases.
    all: intros Hin; split_in Hin.
    all: split_and!; try done.
    all: match goal with
    | H : vector_size_of _ = Ok _ |- _ =>
        destruct (vector_size_of_inv _ _ H) as (f & r & d & v & -> & ? & ? & ?)
    end; by exists f, r, d, v.
  - run_cases.
    all: intros Hin; split_in Hin.
    all: eexists _, _; rewrite !elem_of_cons, !elem_of_app, !elem_of_cons; eauto 8.
Qed.

(** ** The transformer *)

Lemma mapM_Forall2 {A B} (f : A -> result B) l ys :
  mapM f l = Ok ys -> Forall2 (fun x y => f x = Ok y) l ys.
Proof.
  revert ys. induction l as [|x l IH]; intros ys Hm; cbn in Hm.
  - injection Hm as <-. constructor.
  - destruct (f x) as [y|e] eqn:Hx; [| done].
    destruct (mapM f l) as [ys'|e]; [| done].
    injection Hm as <-. constructor; [done | by apply IH].
Qed.

Lemma mapM_all_ok {A B} (f : A -> result B) l :
  Forall (fun x => is_Ok (f x) = true) l ->
  exists ys, mapM f l = Ok ys /\ length ys = length l.
Proof.
  induction 1 as [|x l Hx _ (ys & Hys & Hlen)]; [by exists [] |].
  destruct (f x) as [y|e] eqn:Hy; [| done].
  exists (y :: ys). cbn. rewrite Hy, Hys. by rewrite <- Hlen.
Qed.

Lemma mapM_one_fails {A B} (f : A -> result B) l :
  Exists (fun x => is_Ok (f x) = false) l -> exists e, mapM f l = Err e.
Proof.
  induction 1 as [x l Hx|x l _ (e & He)]; cbn.
  - destruct (f x) as [y|e]; [done | by exists e].
  - destruct (f x) as [y|e']; [| by exists e'].
    rewrite He. by exists e.
Qed.

Lemma to_point_run (d : dict) (i v : value) :
  d !! "id" = Some i ->
  d !! "vectors" = Some v ->
  point_ok i v (delete "vectors" (delete "id" d)) = true ->
  to_point (VDict d)
  = Ok (models.mkPointStruct i (vector_of v) (delete "vectors" (delete "id" d))).
Proof.
  intros Hid Hvec Hok. unfold to_point, pop, dict_pop, new_point.
  rewrite Hid. rewrite lookup_delete_ne by done. by rewrite Hvec, Hok.
Qed.


Lemma to_point_inv item p :
  to_point item = Ok p ->
  exists d v,
    item = VDict d /\
    d !! "id" = Some (models.id p) /\
    d !! "vectors" = Some v /\
    models.vector p = vector_of v /\
    models.payload p = delete "vectors" (delete "id" d).
Proof.
  unfold to_point, pop, dict_pop, new_point. intros Hp.
  destruct item as [| | | | | |d]; try done. exists d.
  destruct (d !! "id") as [i|] eqn:Hid; [| done].
  destruct (delete "id" d !! "vectors") as [v|] eqn:Hvec; [| done].
  rewrite lookup_delete_ne in Hvec by done. exists v.
  destruct (point_ok i v _); [| done]. by injection Hp as <-.
Qed.

Lemma input_record_to_point n item :
  input_record n item = true -> is_Ok (to_point item) = true.
Proof.
  unfold input_record. intros Hrec.
  destruct item as [| | | | | |d]; try done.
  destruct (d !! "id") as [i|] eqn:Hid; [| done].
  destruct (d !! "vectors") as [v|] eqn:Hvec; [| done].
  destruct (len v) as [m|]; [| done].
  apply andb_prop in Hrec as [_ Hok].
  by rewrite (to_point_run d i v Hid Hvec Hok).
Qed.

Lemma lacks_field_to_point item :
  lacks_field item = true -> is_Ok (to_point item) = false.
Proof.
  unfold lacks_field. intros Hlack.
  destruct (to_point item) as [p|e] eqn:Hp; [| done].
  destruct (to_point_inv item p Hp) as (d & v & -> & Hid & Hvec & _).
  by rewrite Hid, Hvec in Hlack.
Qed.

(** The upsert call of a run carries the points made from the data, and
    nothing else is ever sent. *)
Lemma upsert_events fuel data_json s name points r :
  Upsert name points r ∈ events (seed_data fuel data_json s) ->
  name = COLLECTION_NAME /\
  exists data, data_json = Ok data /\ to_points data = Ok points /\
               is_Ok (vector_size_of data) = true.
Proof.
  run_cases. all: intros Hin; split_in Hin.
  all: split; [done |]; eexists; split_and!; try done.
  all: match goal with H : vector_size_of _ = _ |- _ => by rewrite H end.
Qed.

(** ** The batch writer *)

(** C8. The points of the upsert call follow the input order: the call
    carries one point per input record, and the point at each position
    is the one made from the record at that position, with that record's
    identifier. *)
Theorem upsert_keeps_order fuel recs s name points r :
  Upsert name points r ∈ events (seed_data fuel (Ok (VList recs)) s) ->
  Forall2 (fun item p =>
             to_point item = Ok p /\
             getitem_str item "id" = Ok (models.id p)) recs points /\
  forall k item,
    recs !! k = Some item ->
    exists p, points !! k = Some p /\ to_point item = Ok p.
Proof.
  intros Hin.
  destruct (upsert_events _ _ _ _ _ _ Hin) as (_ & data & [= <-] & Hpts & _).
  unfold to_points in Hpts. cbn [iter] in Hpts.
  apply mapM_Forall2 in Hpts. split.
  - eapply Forall2_impl; [done |]. intros item p Hp. split; [done |].
    destruct (to_point_inv item p Hp) as (d & v & -> & Hid & _).
    unfold getitem_str. by rewrite Hid.
  - intros k item Hk.
    destruct (Forall2_lookup_l _ _ _ _ _ Hpts Hk) as (p & Hp & Hto). eauto.
Qed.

Lemma input_records_size n first rest :
  input_record n first = true -> vector_size_of (VList (first :: rest)) = Ok n.
Proof.
  unfold vector_size_of, input_record. rewrite getitem_int_first. intros Hrec.
  destruct first as [| | | | | |d]; try done.
  destruct (d !! "id") as [i|]; [| done].
  unfold getitem_str.
  destruct (d !! "vectors") as [v|]; [| done].
  destruct (len v) as [m|]; [| done].
  apply andb_prop in Hrec as [Hm _]. apply Nat.eqb_eq in Hm. by subst.
Qed.

Lemma forallb_Forall {A} (f : A -> bool) l :
  forallb f l = true -> Forall (fun x => f x = true) l.
Proof.
  induction l as [|x l IH]; [constructor |]. cbn.
  intros [Hx Hl]%andb_prop. constructor; auto.
Qed.

Lemma existsb_Exists {A} (f : A -> bool) l :
  existsb f l = true -> Exists (fun x => f x = true) l.
Proof.
  induction l as [|x l IH]; [done |]. cbn.
  intros [Hx|Hl]%orb_prop; [by left | right; auto].
Qed.

Lemma filter_quiet (f : event -> bool) evs :
  Forall (fun ev => f ev = false) evs -> List.filter f evs = [].
Proof.
  induction 1 as [|ev evs Hev _ IH]; [done |]. cbn. by rewrite Hev.
Qed.

Lemma loop_no_upsert fuel s : List.filter is_upsert (events (connect fuel s)) = [].
Proof.
  apply filter_quiet. eapply Forall_impl; [apply connect_events |].
  intros ev Hev. by apply loop_event_quiet in Hev as (_ & _ & ? & _).
Qed.

(** C1. On a non-empty array of well-formed records with vectors of one
    length, once the connection is made and the existence check (and the
    creation, where the collection is absent) have answered, the run
    makes exactly one upsert call; it carries as many points as there
    are input records, and when the call returns the run ends by
    reporting that number. *)
Theorem points_count fuel s recs n found :
  recs ≠ [] ->
  forallb (input_record n) recs = true ->
  ending (connect fuel s) = Done tt ->
  (collection_exists COLLECTION_NAME (final (connect fuel s))).1 = Ok found ->
  (found = false ->
   (create_collection COLLECTION_NAME (models.mkVectorParams n models.COSINE)
      (collection_exists COLLECTION_NAME (final (connect fuel s))).2).1 = Ok tt) ->
  exists points answer,
    length points = length recs /\
    List.filter is_upsert (events (seed_data fuel (Ok (VList recs)) s))
    = [Upsert COLLECTION_NAME points answer] /\
    (answer = Ok tt ->
     ending (seed_data fuel (Ok (VList recs)) s) = Done tt /\
     last (events (seed_data fuel (Ok (VList recs)) s))
     = Some (Print (Inserted (length recs)))) /\
    (forall k, Print (Inserted k) ∈ events (seed_data fuel (Ok (VList recs)) s) ->
               k = length recs).
Proof.
  intros Hne Hrecs Hconn Hfound Hcreate.
  apply forallb_Forall in Hrecs.
  destruct (mapM_all_ok to_point recs) as (points & Hpoints & Hlen).
  { eapply Forall_impl; [done |]. intros item Hitem.
    by apply (input_record_to_point n). }
  destruct recs as [|first rest]; [done |].
  assert (vector_size_of (VList (first :: rest)) = Ok n) as Hsize.
  { apply input_records_size. by inversion Hrecs. }
  assert (to_points (VList (first :: rest)) = Ok points) as Hto by done.
  exists points. rewrite Hlen.
  pose proof (loop_no_upsert fuel s) as Hquiet.
  revert Hconn Hfound Hcreate Hquiet.
  rewrite seed_data_run.
  pose proof (connect_events fuel s) as Hloop.
  destruct (connect fuel s) as [[evs1 s1] r1]. cbn [events final ending fst snd] in *.
  intros -> Hfound Hcreate Hquiet.
  rewrite setup_collection_run, Hsize.
  destruct (collection_exists COLLECTION_NAME s1) as [r2 s2].
  cbn [fst snd] in *. subst r2.
  assert (found = false ->
          exists s3, create_collection COLLECTION_NAME
                       (models.mkVectorParams n models.COSINE) s2 = (Ok tt, s3))
    as Hcreated.
  { intros Hf. specialize (Hcreate Hf).
    destruct (create_collection _ _ s2) as [r3 s3]. cbn in Hcreate. subst r3.
    by exists s3. }
  clear Hcreate.
  destruct found.
  - rewrite batch_upload_run, Hto.
    destruct (upsert COLLECTION_NAME points s2) as [[[]|e] s4].
    all: eexists; cbn [events ending fst snd]; split_and!; [done | | |].
    all: try (cbn [List.filter is_upsert];
              rewrite !List.filter_app, Hquiet; reflexivity).
    all: try (intros k Hin; split_in Hin; by rewrite Hlen).
    + intros _. split; [done |]. rewrite last_cons, !last_app. cbn. by rewrite Hlen.
    + done.
  - destruct Hcreated as (s3 & ->); [done |].
    rewrite batch_upload_run, Hto.
    destruct (upsert COLLECTION_NAME points s3) as [[[]|e] s4].
    all: eexists; cbn [events ending fst snd]; split_and!; [done | | |].
    all: try (cbn [List.filter is_upsert];
              rewrite !List.filter_app, Hquiet; reflexivity).
    all: try (intros k Hin; split_in Hin; by rewrite Hlen).
    + intros _. split; [done |]. rewrite last_cons, !last_app. cbn. by rewrite Hlen.
    + done.
Qed.

(** ** Runs that stop before the server is asked anything *)

Lemma no_first_vectors_size data :
  no_first_vectors data = true ->
  vector_size_of data = Err IndexError \/
  vector_size_of data = Err (KeyError (VStr "vectors")).
Proof.
  unfold no_first_vectors. intros Hno.
  destruct data as [| | | | |[|first rest]|]; try done.
  - by left.
  - destruct first as [| | | | | |d]; try done.
    unfold vector_size_of. rewrite getitem_int_first. unfold getitem_str.
    destruct (d !! "vectors"); [done | by right].
Qed.

(** When no vector size can be read, the run is the connection loop and
    then the exception. *)
Lemma seed_data_no_size fuel data s e :
  vector_size_of data = Err e ->
  events (seed_data fuel (Ok data) s) = Print Attempting :: events (connect fuel s) /\
  final (seed_data fuel (Ok data) s) = final (connect fuel s) /\
  ending (seed_data fuel (Ok data) s)
  = match ending (connect fuel s) with
    | Done _ => Raised e
    | r => r
    end.
Proof.
  intros Hsize. rewrite seed_data_run.
  destruct (connect fuel s) as [[evs1 s1] [[]|e1|]]; [| done | done].
  rewrite setup_collection_run, Hsize. cbn. by rewrite app_nil_r.
Qed.

Lemma seed_data_quiet fuel data s e :
  vector_size_of data = Err e ->
  Forall (fun ev => is_exists ev = false /\ is_write ev = false)
         (events (seed_data fuel (Ok data) s)).
Proof.
  intros Hsize. destruct (seed_data_no_size fuel data s e Hsize) as (-> & _).
  constructor; [done |].
  eapply Forall_impl; [apply connect_events |]. intros ev Hev.
  apply loop_event_quiet in Hev as (? & Hc & Hu & _).
  unfold is_write. by rewrite Hc, Hu.
Qed.

(** C5. On the empty input array the run fails: once connected it raises
    [IndexError] where it reads the first element, it never ends
    normally, and it makes no existence check, no creation call (so no
    collection of dimension zero) and no upsert. *)
Theorem empty_array_fails fuel s :
  Forall (fun ev => is_exists ev = false /\ is_write ev = false)
         (events (seed_data fuel (Ok (VList [])) s)) /\
  ending (seed_data fuel (Ok (VList [])) s) ≠ Done tt /\
  (ending (connect fuel s) = Done tt ->
   ending (seed_data fuel (Ok (VList [])) s) = Raised IndexError).
Proof.
  assert (vector_size_of (VList []) = Err IndexError) as Hsize by done.
  split; [by eapply seed_data_quiet |].
  destruct (seed_data_no_size fuel _ s _ Hsize) as (_ & _ & ->).
  split; [| by intros ->].
  by destruct (ending (connect fuel s)) as [[]| |].
Qed.

(** C9. The vector size is read before the existence check, whatever
    the server holds: on an empty array, or when the first record has no
    [vectors], the run makes no existence check, no creation call and no
    upsert, leaves the server as the connection loop left it, never ends
    normally, and once connected raises [IndexError] or
    [KeyError('vectors')]. *)
Theorem vector_size_read_first fuel data s :
  no_first_vectors data = true ->
  Forall (fun ev => is_exists ev = false /\ is_write ev = false)
         (events (seed_data fuel (Ok data) s)) /\
  final (seed_data fuel (Ok data) s) = final (connect fuel s) /\
  ending (seed_data fuel (Ok data) s) ≠ Done tt /\
  (ending (connect fuel s) = Done tt ->
   ending (seed_data fuel (Ok data) s) = Raised IndexError \/
   ending (seed_data fuel (Ok data) s) = Raised (KeyError (VStr "vectors"))).
Proof.
  intros Hno.
  destruct (no_first_vectors_size data Hno) as [Hsize|Hsize].
  all: split; [by eapply seed_data_quiet |].
  all: destruct (seed_data_no_size fuel _ s _ Hsize) as (_ & -> & ->).
  all: split; [done |].
  all: split; [by destruct (ending (connect fuel s)) as [[]| |] |].
  all: intros ->; auto.
Qed.

(** ** Malformed records *)

Lemma malformed_to_points recs :
  existsb lacks_field recs = true -> exists e, to_points (VList recs) = Err e.
Proof.
  intros Hbad%existsb_Exists. unfold to_points. cbn [iter].
  apply mapM_one_fails. eapply Exists_impl; [done |].
  apply lacks_field_to_point.
Qed.

(** A run whose transformation fails, stage by stage. *)
Lemma seed_data_no_points fuel data s e :
  to_points data = Err e ->
  Forall (fun ev => is_upsert ev = false) (events (seed_data fuel (Ok data) s)) /\
  ending (seed_data fuel (Ok data) s) ≠ Done tt /\
  (ending (connect fuel s) = Done tt ->
   exists e', ending (seed_data fuel (Ok data) s) = Raised e').
Proof.
  intros Hto.
  assert (Forall (fun ev => is_upsert ev = false) (events (connect fuel s)))
    as Hquiet.
  { eapply Forall_impl; [apply connect_events |]. intros ev Hev.
    by apply loop_event_quiet in Hev as (_ & _ & ? & _). }
  revert Hquiet. run_cases. all: intros Hquiet.
  all: split_and!; try done; try (intros _; by eexists).
  all: rewrite ?app_nil_r; repeat (constructor; [done |]); try done.
  all: apply Forall_app; split; [done | by repeat constructor].
Qed.

(** C4, as the code has it. When some record of the array lacks [id] or
    [vectors], the transformation fails and so does the run: it never
    ends normally, raises once connected, and makes no upsert call, so
    no point is written and whatever the probes, the existence check and
    the creation of the collection leave alone is as it was.  (The
    collection itself may have been created by then: the creation comes
    before the transformation.) *)
Theorem malformed_record_aborts fuel recs s :
  existsb lacks_field recs = true ->
  (exists e, to_points (VList recs) = Err e) /\
  Forall (fun ev => is_upsert ev = false)
         (events (seed_data fuel (Ok (VList recs)) s)) /\
  ending (seed_data fuel (Ok (VList recs)) s) ≠ Done tt /\
  (ending (connect fuel s) = Done tt ->
   exists e, ending (seed_data fuel (Ok (VList recs)) s) = Raised e) /\
  (forall (A : Type) (stored : S -> A),
      (forall s1, stored (get_collections s1).2 = stored s1) ->
      (forall name s1, stored (collection_exists name s1).2 = stored s1) ->
      (forall name cfg s1, stored (create_collection name cfg s1).2 = stored s1) ->
      stored (final (seed_data fuel (Ok (VList recs)) s)) = stored s).
Proof.
  intros Hbad. destruct (malformed_to_points recs Hbad) as (e & Hto).
  destruct (seed_data_no_points fuel _ s e Hto) as (Hnoup & Hend & Hraise).
  split_and!; [by exists e | done | done | done |].
  intros A stored Hprobe Hexists Hcreate.
  eapply run_frame; [apply seed_data_trace | done | done | by right | by left].
Qed.

(** ** A collection that is already there *)

(** C6. When the existence check answers that the collection exists,
    the run makes no creation call, and whatever the probes, the
    existence check and the upsert leave alone (the configuration of the
    collections: dimension and metric) is after the run as it was
    before. *)
Theorem existing_collection_untouched fuel data_json s name :
  CollectionExists name (Ok true) ∈ events (seed_data fuel data_json s) ->
  Forall (fun ev => is_create ev = false) (events (seed_data fuel data_json s)) /\
  (forall (A : Type) (config : S -> A),
      (forall s1, config (get_collections s1).2 = config s1) ->
      (forall name s1, config (collection_exists name s1).2 = config s1) ->
      (forall name points s1, config (upsert name points s1).2 = config s1) ->
      config (final (seed_data fuel data_json s)) = config s).
Proof.
  intros Hin.
  assert (Forall (fun ev => is_create ev = false)
                 (events (seed_data fuel data_json s))) as Hnocreate.
  { assert (Forall (fun ev => is_create ev = false) (events (connect fuel s)))
      as Hquiet.
    { eapply Forall_impl; [apply connect_events |]. intros ev Hev.
      by apply loop_event_quiet in Hev as (_ & ? & _). }
    revert Hin Hquiet. run_cases. all: intros Hin Hquiet; split_in Hin.
    all: constructor; [done |].
    all: apply Forall_app; split; [done |].
    all: by repeat constructor. }
  split; [done |].
  intros A config Hprobe Hexists Hupsert.
  eapply run_frame; [apply seed_data_trace | done | done | by left | by right].
Qed.

(** ** Retrying the connection *)

Lemma attempts_app evs1 evs2 : attempts (evs1 ++ evs2) = attempts evs1 + attempts evs2.
Proof. unfold attempts. by rewrite List.filter_app, length_app. Qed.

(** Only the connection loop probes the server, and a run goes on
    exactly as long as the loop does. *)
Lemma seed_data_attempts fuel data_json s :
  attempts (events (seed_data fuel data_json s)) = attempts (events (connect fuel s)) /\
  (ending (seed_data fuel data_json s) = Looping <->
   ending (connect fuel s) = Looping).
Proof.
  run_cases.
  all: change (Print Attempting :: ?l) with ([Print Attempting] ++ l).
  all: rewrite ?attempts_app; cbn; split; [lia | done].
Qed.

(** C7. When the first [n] probes fail and the next one succeeds, the
    loop ends after exactly [n + 1] attempts, as soon as it is allowed
    more than [n] iterations, and the run goes on from there; when every
    probe fails, the loop is still running after any number of
    iterations, each of them one more attempt: there is no last
    attempt. *)
Theorem connect_retries s data_json :
  (forall n fuel,
      (forall k, k < n -> probe_fails k s = true) ->
      probe_result n s = Ok tt ->
      n < fuel ->
      ending (connect fuel s) = Done tt /\
      attempts (events (connect fuel s)) = n + 1 /\
      attempts (events (seed_data fuel data_json s)) = n + 1 /\
      ending (seed_data fuel data_json s) ≠ Looping) /\
  ((forall k, probe_fails k s = true) ->
   forall fuel,
     ending (connect fuel s) = Looping /\
     attempts (events (connect fuel s)) = fuel /\
     attempts (events (seed_data fuel data_json s)) = fuel /\
     ending (seed_data fuel data_json s) = Looping).
Proof.
  split.
  - intros n fuel Hfail Hok Hlt.
    destruct (connect_succeeds n s fuel Hfail Hok Hlt) as (Hend & _ & Hatt).
    destruct (seed_data_attempts fuel data_json s) as (-> & Hloop).
    split_and!; [done | done | done |].
    rewrite Hloop, Hend. done.
  - intros Hfail fuel.
    destruct (connect_still_looping fuel s) as (Hend & _ & Hatt); [by auto |].
    destruct (seed_data_attempts fuel data_json s) as (-> & Hloop).
    split_and!; [done | done | done | by apply Hloop].
Qed.

(** * Further properties of the script *)

(** ** Errors of the steps after the connection *)

(** After the connection loop a run emits no loop event: no probe, no
    pause, none of the loop's messages. *)
Lemma seed_data_events_split fuel data_json s :
  exists rest,
    events (seed_data fuel data_json s)
    = Print Attempting :: events (connect fuel s) ++ rest /\
    Forall (fun ev => is_loop_event ev = false) rest.
Proof.
  run_cases.
  all: first [ by eexists; split; [reflexivity | repeat constructor]
             | exists []; split; [by rewrite app_nil_r | constructor] ].
Qed.

(** X1. [data.json] is read only after the connection is made.  When
    reading or parsing it fails, the run raises that error once connected,
    having asked the server nothing but the probes; while the loop runs
    the error does not show. *)
Theorem load_failure_propagates fuel s e :
  Forall (fun ev => is_exists ev = false /\ is_write ev = false)
         (events (seed_data fuel (Err e) s)) /\
  final (seed_data fuel (Err e) s) = final (connect fuel s) /\
  (ending (connect fuel s) = Done tt ->
   ending (seed_data fuel (Err e) s) = Raised e) /\
  (ending (connect fuel s) = Looping ->
   ending (seed_data fuel (Err e) s) = Looping).
Proof.
  pose proof (connect_events fuel s) as Hquiet.
  rewrite seed_data_run.
  destruct (connect fuel s) as [[evs1 s1] [[]|e1|]]; cbn in *.
  all: split_and!; try done.
  all: constructor; [done |].
  all: eapply Forall_impl; [exact Hquiet |]; intros ev Hev.
  all: apply loop_event_quiet in Hev as (? & Hc & Hu & _).
  all: unfold is_write; by rewrite Hc, Hu.
Qed.

(** X2. An error of the existence check is not retried and not handled:
    the run makes that one check, raises what it raised, and makes no
    creation call and no upsert. *)
Theorem existence_check_error_propagates fuel data s n e :
  ending (connect fuel s) = Done tt ->
  vector_size_of data = Ok n ->
  (collection_exists COLLECTION_NAME (final (connect fuel s))).1 = Err e ->
  ending (seed_data fuel (Ok data) s) = Raised e /\
  calls_of (events (seed_data fuel (Ok data) s))
  = calls_of (events (connect fuel s)) ++ [collection_exists_call] /\
  last (events (seed_data fuel (Ok data) s))
  = Some (CollectionExists COLLECTION_NAME (Err e)) /\
  Forall (fun ev => is_write ev = false) (events (seed_data fuel (Ok data) s)).
Proof.
  intros Hconn Hsize Hex.
  pose proof (connect_events fuel s) as Hquiet.
  revert Hconn Hex. rewrite seed_data_run.
  destruct (connect fuel s) as [[evs1 s1] r1]. cbn [events final ending fst snd] in *.
  intros -> Hex. rewrite setup_collection_run, Hsize.
  destruct (collection_exists COLLECTION_NAME s1) as [r2 s2]. cbn in Hex. subst r2.
  cbn [events final ending fst snd]. split_and!.
  - done.
  - clear Hquiet. induction evs1 as [|[] evs1 IH]; cbn in *; by rewrite ?IH.
  - by rewrite last_cons, last_app.
  - constructor; [done |]. apply Forall_app. split; [| by repeat constructor].
    eapply Forall_impl; [exact Hquiet |]. intros ev Hev.
    apply loop_event_quiet in Hev as (_ & Hc & Hu & _).
    unfold is_write. by rewrite Hc, Hu.
Qed.

(** X3. An error of the creation call stops the run before the records
    are transformed: the run raises what the call raised and makes no
    upsert, the creation call being the last thing it does. *)
Theorem creation_error_propagates fuel data s n e :
  ending (connect fuel s) = Done tt ->
  vector_size_of data = Ok n ->
  (collection_exists COLLECTION_NAME (final (connect fuel s))).1 = Ok false ->
  (create_collection COLLECTION_NAME (models.mkVectorParams n models.COSINE)
     (collection_exists COLLECTION_NAME (final (connect fuel s))).2).1 = Err e ->
  ending (seed_data fuel (Ok data) s) = Raised e /\
  last (events (seed_data fuel (Ok data) s))
  = Some (CreateCollection COLLECTION_NAME
            (models.mkVectorParams n models.COSINE) (Err e)) /\
  Forall (fun ev => is_upsert ev = false) (events (seed_data fuel (Ok data) s)).
Proof.
  intros Hconn Hsize Hex Hcr.
  pose proof (connect_events fuel s) as Hquiet.
  revert Hconn Hex Hcr. rewrite seed_data_run.
  destruct (connect fuel s) as [[evs1 s1] r1]. cbn [events final ending fst snd] in *.
  intros -> Hex Hcr. rewrite setup_collection_run, Hsize.
  destruct (collection_exists COLLECTION_NAME s1) as [r2 s2]. cbn in Hex, Hcr. subst r2.
  destruct (create_collection _ _ s2) as [r3 s3]. cbn in Hcr. subst r3.
  cbn [events final ending fst snd]. split_and!.
  - done.
  - by rewrite last_cons, last_app.
  - constructor; [done |]. apply Forall_app. split; [| by repeat constructor].
    eapply Forall_impl; [exact Hquiet |]. intros ev Hev.
    by apply loop_event_quiet in Hev as (_ & _ & ? & _).
Qed.

(** X4. The count is reported exactly when the run ends normally; the
    report is then the last output, and its number is the number of points
    of an upsert call that returned. *)
Theorem count_reported_iff_done fuel data_json s :
  (ending (seed_data fuel data_json s) = Done tt <->
   exists k, Print (Inserted k) ∈ events (seed_data fuel data_json s)) /\
  (forall k,
      Print (Inserted k) ∈ events (seed_data fuel data_json s) ->
      last (events (seed_data fuel data_json s)) = Some (Print (Inserted k)) /\
      exists points,
        length points = k /\
        Upsert COLLECTION_NAME points (Ok tt) ∈ events (seed_data fuel data_json s)).
Proof.
  split.
  - split.
    + run_cases. all: intros Hend; try done.
      all: eexists; rewrite !elem_of_cons, !elem_of_app, !elem_of_cons; eauto 10.
    + intros (k & Hin). revert Hin. run_cases. all: intros Hin; split_in Hin.
  - intros k. run_cases. all: intros Hin; split_in Hin.
    all: split; [by rewrite last_cons, !last_app |].
    all: eexists; split; [reflexivity |].
    all: rewrite !elem_of_cons, !elem_of_app, !elem_of_cons; eauto 10.
Qed.

(** X5. An error of the upsert call ends the run with that error: the
    call is the last thing the run does and no count is reported. *)
Theorem upsert_error_propagates fuel data_json s name points e :
  Upsert name points (Err e) ∈ events (seed_data fuel data_json s) ->
  ending (seed_data fuel data_json s) = Raised e /\
  last (events (seed_data fuel data_json s))
  = Some (Upsert COLLECTION_NAME points (Err e)) /\
  forall k, Print (Inserted k) ∉ events (seed_data fuel data_json s).
Proof.
  run_cases. all: intros Hin; split_in Hin.
  all: split_and!; [done | by rewrite last_cons, !last_app |].
  all: intros k Hk; split_in Hk.
Qed.

(** ** More on the connection loop *)

Lemma sleeps_app evs1 evs2 : sleeps (evs1 ++ evs2) = sleeps evs1 + sleeps evs2.
Proof. unfold sleeps. by rewrite List.filter_app, length_app. Qed.

Lemma calls_of_app evs1 evs2 : calls_of (evs1 ++ evs2) = calls_of evs1 ++ calls_of evs2.
Proof. induction evs1 as [|[] evs1 IH]; cbn; by rewrite ?IH. Qed.

Lemma after_loop_quiet rest :
  Forall (fun ev => is_loop_event ev = false) rest ->
  attempts rest = 0 /\ sleeps rest = 0.
Proof.
  induction 1 as [|ev rest Hev _ [IHa IHs]]; [done |].
  unfold attempts, sleeps in *. by destruct ev as [[]| | | | |].
Qed.

(** The loop, attempt by attempt: a pause of 3 seconds and a message
    follow every caught failure and nothing else, and the calls are
    probes. *)
Lemma connect_rounds fuel s :
  Forall (fun ev => forall k, ev = Sleep k -> k = 3) (events (connect fuel s)) /\
  calls_of (events (connect fuel s))
  = replicate (attempts (events (connect fuel s))) get_collections_call /\
  match ending (connect fuel s) with
  | Looping => attempts (events (connect fuel s)) = fuel /\
               sleeps (events (connect fuel s)) = fuel
  | _ => attempts (events (connect fuel s)) = sleeps (events (connect fuel s)) + 1 /\
         attempts (events (connect fuel s)) <= fuel
  end.
Proof.
  revert s. induction fuel as [|fuel IH]; intros s.
  { cbn. split_and!; by try constructor. }
  destruct (get_collections s) as [[[]|e] s1] eqn:Hp.
  - rewrite (connect_S_ok fuel s s1 Hp). cbn.
    split_and!; [by repeat constructor | done | done | lia].
  - destruct (is_Exception e) eqn:He.
    + rewrite (connect_S_caught fuel s s1 e Hp He).
      destruct (IH s1) as (Hthree & Hcalls & Hcount).
      cbn [events final ending fst snd].
      rewrite attempts_failed_round.
      change (sleeps (GetCollections (Err e) :: Print (ConnectionFailed e)
                        :: Sleep 3 :: ?l))
        with (Datatypes.S (sleeps l)).
      split_and!.
      * constructor; [done |]. constructor; [done |].
        constructor; [by intros k [= <-] | done].
      * cbn. by rewrite Hcalls.
      * destruct (ending (connect fuel s1)); lia.
    + rewrite (connect_S_uncaught fuel s s1 e Hp He). cbn.
      split_and!; [by repeat constructor | done | done | lia].
Qed.

Lemma seed_data_sleeps fuel data_json s :
  sleeps (events (seed_data fuel data_json s)) = sleeps (events (connect fuel s)).
Proof.
  destruct (seed_data_events_split fuel data_json s) as (rest & -> & Hrest).
  destruct (after_loop_quiet rest Hrest) as (_ & Hnosleep).
  change (Print Attempting :: ?l) with ([Print Attempting] ++ l).
  rewrite !sleeps_app, Hnosleep. cbn. lia.
Qed.

(** X6. Every pause of a run lasts 3 seconds, and there is one pause per
    failed attempt: a run that left the loop made one attempt more than it
    paused, a run still in the loop has paused after every attempt. *)
Theorem one_pause_per_failure fuel data_json s :
  Forall (fun ev => forall k, ev = Sleep k -> k = 3)
         (events (seed_data fuel data_json s)) /\
  (ending (seed_data fuel data_json s) = Looping ->
   sleeps (events (seed_data fuel data_json s)) = fuel /\
   attempts (events (seed_data fuel data_json s)) = fuel) /\
  (ending (seed_data fuel data_json s) ≠ Looping ->
   attempts (events (seed_data fuel data_json s))
   = sleeps (events (seed_data fuel data_json s)) + 1).
Proof.
  destruct (seed_data_events_split fuel data_json s) as (rest & Hev & Hrest).
  destruct (seed_data_attempts fuel data_json s) as (Hatt & Hloop).
  destruct (connect_rounds fuel s) as (Hthree & _ & Hcount).
  rewrite Hatt, seed_data_sleeps. split_and!.
  - rewrite Hev. constructor; [done |]. apply Forall_app. split; [done |].
    eapply Forall_impl; [exact Hrest |]. by intros ev Hq k ->.
  - intros Hl%Hloop. rewrite Hl in Hcount. lia.
  - intros Hl. destruct (ending (connect fuel s)) eqn:Hend; [lia | lia |].
    by destruct Hl; apply Hloop.
Qed.

(** X7. The loop catches exceptions only: when the first [n] probes
    fail and are caught and the next one raises an interrupt, the run ends
    with the interrupt after [n + 1] attempts, without a further pause and
    without any other call. *)
Theorem interrupt_leaves_loop n s fuel e data_json :
  (forall k, k < n -> probe_fails k s = true) ->
  probe_result n s = Err e ->
  is_Exception e = false ->
  n < fuel ->
  ending (seed_data fuel data_json s) = Raised e /\
  attempts (events (seed_data fuel data_json s)) = n + 1 /\
  sleeps (events (seed_data fuel data_json s)) = n /\
  last (events (seed_data fuel data_json s)) = Some (GetCollections (Err e)) /\
  Forall (fun ev => is_exists ev = false /\ is_write ev = false)
         (events (seed_data fuel data_json s)).
Proof.
  intros Hfail Herr Hexc Hlt.
  assert (ending (connect fuel s) = Raised e /\
          attempts (events (connect fuel s)) = n + 1 /\
          last (events (connect fuel s)) = Some (GetCollections (Err e)))
    as (Hend & Hatt & Hlast).
  { revert s fuel Hfail Herr Hlt. induction n as [|n IH]; intros s fuel Hfail Herr Hlt.
    - destruct fuel as [|fuel]; [lia |].
      unfold probe_result in Herr. cbn [after_probes] in Herr.
      destruct (get_collections s) as [r s1] eqn:Hp. cbn in Herr. subst r.
      by rewrite (connect_S_uncaught fuel s s1 e Hp Hexc).
    - destruct fuel as [|fuel]; [lia |].
      destruct (probe_fails_inv 0 s) as (e0 & He0 & Hexc0); [apply Hfail; lia |].
      unfold probe_result in He0, Herr. cbn [after_probes] in He0, Herr.
      destruct (get_collections s) as [r s1] eqn:Hp. cbn in He0. subst r.
      rewrite (connect_S_caught fuel s s1 e0 Hp Hexc0).
      destruct (IH s1 fuel) as (Hend & Hatt & Hlast); [| done | lia |].
      { intros k Hk. specialize (Hfail (Datatypes.S k) ltac:(lia)).
        unfold probe_fails, probe_result in *. cbn [after_probes] in Hfail.
        by rewrite Hp in Hfail. }
      cbn [events final ending fst snd].
      rewrite attempts_failed_round, Hatt. split_and!; [done | lia |].
      rewrite !last_cons, Hlast. done. }
  destruct (connect_rounds fuel s) as (_ & _ & Hsl). rewrite Hend in Hsl.
  destruct (seed_data_attempts fuel data_json s) as (Hatt' & Hloop).
  pose proof (seed_data_sleeps fuel data_json s) as Hsl'.
  pose proof (connect_events fuel s) as Hquiet.
  revert Hend Hatt Hlast Hsl Hatt' Hsl' Hquiet. rewrite seed_data_run.
  destruct (connect fuel s) as [[evs1 s1] r1]. cbn [events final ending fst snd].
  intros -> Hatt Hlast Hsl Hatt' Hsl' Hquiet. cbn [events final ending fst snd] in *.
  split_and!; [done | by rewrite Hatt', Hatt | | |].
  - rewrite Hsl'. lia.
  - rewrite last_cons, Hlast. done.
  - constructor; [done |]. eapply Forall_impl; [exact Hquiet |]. intros ev Hev.
    apply loop_event_quiet in Hev as (? & Hc & Hu & _).
    unfold is_write. by rewrite Hc, Hu.
Qed.

(** X8. The order of the client calls.  A run probes as often as the loop
    needs and never again afterwards; then it makes at most one existence
    check, at most one creation call and at most one upsert, in this
    order: the creation only after a check, the upsert only after a check
    (and the creation, if any). *)
Theorem call_protocol fuel data_json s :
  exists tail,
    calls_of (events (seed_data fuel data_json s))
    = replicate (attempts (events (seed_data fuel data_json s))) get_collections_call
      ++ tail /\
    tail ∈ [ [];
             [collection_exists_call];
             [collection_exists_call; create_collection_call];
             [collection_exists_call; upsert_call];
             [collection_exists_call; create_collection_call; upsert_call] ].
Proof.
  destruct (seed_data_attempts fuel data_json s) as (-> & _).
  destruct (connect_rounds fuel s) as (_ & <- & _).
  run_cases.
  all: change (Print Attempting :: ?l) with ([Print Attempting] ++ l).
  all: rewrite ?calls_of_app; cbn [calls_of app].
  all: eexists; split;
    [ first [ reflexivity | by rewrite app_nil_r ]
    | rewrite !elem_of_cons; eauto 10 ].
Qed.

(** ** The bound on the loop does not matter once it is large enough *)

Lemma connect_more_fuel fuel s :
  ending (connect fuel s) ≠ Looping ->
  connect (Datatypes.S fuel) s = connect fuel s.
Proof.
  revert s. induction fuel as [|fuel IH]; intros s Hend; [done |].
  destruct (get_collections s) as [[[]|e] s1] eqn:Hp.
  - by rewrite !(connect_S_ok _ s s1 Hp).
  - destruct (is_Exception e) eqn:He.
    + rewrite (connect_S_caught fuel s s1 e Hp He) in Hend.
      rewrite (connect_S_caught (Datatypes.S fuel) s s1 e Hp He).
      rewrite (connect_S_caught fuel s s1 e Hp He).
      by rewrite IH.
    + by rewrite !(connect_S_uncaught _ s s1 e Hp He).
Qed.

(** X9. A run that ends (normally or with an exception) within some bound
    on the iterations of the loop is the same run under every larger
    bound: same events, same final server state, same ending. *)
Theorem more_fuel_same_run fuel fuel' data_json s :
  ending (seed_data fuel data_json s) ≠ Looping ->
  fuel <= fuel' ->
  seed_data fuel' data_json s = seed_data fuel data_json s.
Proof.
  intros Hend Hle.
  assert (ending (connect fuel s) ≠ Looping) as Hconn.
  { intros Hl. by apply Hend, seed_data_attempts. }
  assert (connect fuel' s = connect fuel s) as Hsame.
  { induction Hle as [|fuel' _ IH]; [done |].
    rewrite <- IH. apply connect_more_fuel. by rewrite IH. }
  by rewrite !seed_data_run, Hsame.
Qed.

(** ** What the script does not check *)

(** X10. Only the first record's vector is measured.  Whatever the
    lengths of the other vectors, when every record makes a point the
    upsert call is made, with all the points; a creation call before it
    asks for the first record's length. *)
Theorem other_lengths_not_compared fuel s first rest n found :
  vector_size_of (VList (first :: rest)) = Ok n ->
  Forall (fun item => is_Ok (to_point item) = true) (first :: rest) ->
  ending (connect fuel s) = Done tt ->
  (collection_exists COLLECTION_NAME (final (connect fuel s))).1 = Ok found ->
  (found = false ->
   (create_collection COLLECTION_NAME (models.mkVectorParams n models.COSINE)
      (collection_exists COLLECTION_NAME (final (connect fuel s))).2).1 = Ok tt) ->
  exists points answer,
    Forall2 (fun item p => to_point item = Ok p) (first :: rest) points /\
    List.filter is_upsert (events (seed_data fuel (Ok (VList (first :: rest))) s))
    = [Upsert COLLECTION_NAME points answer] /\
    forall name cfg r,
      CreateCollection name cfg r
        ∈ events (seed_data fuel (Ok (VList (first :: rest))) s) ->
      exists vectors,
        getitem_str first "vectors" = Ok vectors /\ len vectors = Ok (models.size cfg).
Proof.
  intros Hsize Hall Hconn Hfound Hcreate.
  destruct (mapM_all_ok to_point (first :: rest) Hall) as (points & Hpoints & _).
  assert (to_points (VList (first :: rest)) = Ok points) as Hto by done.
  exists points.
  pose proof (loop_no_upsert fuel s) as Hquiet.
  pose proof (connect_events fuel s) as Hloop.
  assert (exists vectors, getitem_str first "vectors" = Ok vectors /\
                          len vectors = Ok n) as Hfirst.
  { unfold vector_size_of in Hsize. rewrite getitem_int_first in Hsize.
    destruct (getitem_str first "vectors") as [vectors|]; [| done]. by exists vectors. }
  revert Hconn Hfound Hcreate Hquiet Hloop. rewrite seed_data_run.
  destruct (connect fuel s) as [[evs1 s1] r1]. cbn [events final ending fst snd].
  intros -> Hfound Hcreate Hquiet Hloop.
  rewrite setup_collection_run, Hsize.
  destruct (collection_exists COLLECTION_NAME s1) as [r2 s2].
  cbn [fst snd] in *. subst r2.
  destruct found.
  - rewrite batch_upload_run, Hto.
    destruct (upsert COLLECTION_NAME points s2) as [[[]|e] s4].
    all: eexists; cbn [events fst snd]; split_and!; [by apply mapM_Forall2 | |].
    all: try (cbn [List.filter is_upsert];
              rewrite !List.filter_app, Hquiet; reflexivity).
    all: intros name cfg r Hin; split_in Hin.
  - specialize (Hcreate eq_refl).
    destruct (create_collection _ _ s2) as [r3 s3]. cbn in Hcreate. subst r3.
    rewrite batch_upload_run, Hto.
    destruct (upsert COLLECTION_NAME points s3) as [[[]|e] s4].
    all: eexists; cbn [events fst snd]; split_and!; [by apply mapM_Forall2 | |].
    all: try (cbn [List.filter is_upsert];
              rewrite !List.filter_app, Hquiet; reflexivity).
    all: intros name cfg r Hin; split_in Hin; done.
Qed.

(** ** Input of the wrong shape *)

(** X11. When [data.json] holds no array, reading the first element
    fails: a JSON object raises [KeyError(0)], the empty string
    [IndexError], every other value [TypeError]; the run asks the server
    nothing but the probes and never ends normally. *)
Theorem not_an_array_fails fuel data s :
  (forall l, data ≠ VList l) ->
  vector_size_of data = Err (not_array_error data) /\
  Forall (fun ev => is_exists ev = false /\ is_write ev = false)
         (events (seed_data fuel (Ok data) s)) /\
  ending (seed_data fuel (Ok data) s) ≠ Done tt /\
  (ending (connect fuel s) = Done tt ->
   ending (seed_data fuel (Ok data) s) = Raised (not_array_error data)).
Proof.
  intros Hnot.
  assert (vector_size_of data = Err (not_array_error data)) as Hsize.
  { destruct data as [| | | |str|l|d]; try done.
    - destruct str as [|c str]; done.
    - by destruct (Hnot l). }
  split; [done |]. split; [by eapply seed_data_quiet |].
  destruct (seed_data_no_size fuel _ s _ Hsize) as (_ & _ & ->).
  split; [| by intros ->].
  by destruct (ending (connect fuel s)) as [[]| |].
Qed.

(** X12. When the first element of the array is no object, or its
    [vectors] is a number, a boolean or [None], the run raises [TypeError]
    once connected, before any existence check. *)
Theorem unsized_first_fails fuel data s :
  unsized_first data = true ->
  vector_size_of data = Err TypeError /\
  Forall (fun ev => is_exists ev = false /\ is_write ev = false)
         (events (seed_data fuel (Ok data) s)) /\
  ending (seed_data fuel (Ok data) s) ≠ Done tt /\
  (ending (connect fuel s) = Done tt ->
   ending (seed_data fuel (Ok data) s) = Raised TypeError).
Proof.
  intros Hun.
  assert (vector_size_of data = Err TypeError) as Hsize.
  { unfold unsized_first in Hun.
    destruct data as [| | | | |[|first rest]|]; try done.
    unfold vector_size_of. rewrite getitem_int_first.
    destruct first as [| | | | | |d]; try done.
    unfold getitem_str. destruct (d !! "vectors") as [v|]; [| done].
    by destruct v. }
  split; [done |]. split; [by eapply seed_data_quiet |].
  destruct (seed_data_no_size fuel _ s _ Hsize) as (_ & _ & ->).
  split; [| by intros ->].
  by destruct (ending (connect fuel s)) as [[]| |].
Qed.

(** ** More on the transformer *)

(** X13. What [to_point] raises, case by case: for a dictionary,
    [KeyError('id')] when [id] is missing (also when [vectors] is missing
    too: [id] is popped first), [KeyError('vectors')] when only [vectors]
    is missing, [ValidationError] when [PointStruct] rejects the values;
    for a list [TypeError]; for any other value [AttributeError]. *)
Theorem to_point_errors item :
  match item with
  | VDict d =>
      match d !! "id", d !! "vectors" with
      | None, _ => to_point item = Err (KeyError (VStr "id"))
      | Some _, None => to_point item = Err (KeyError (VStr "vectors"))
      | Some i, Some v =>
          if point_ok i v (delete "vectors" (delete "id" d))
          then is_Ok (to_point item) = true
          else to_point item = Err ValidationError
      end
  | VList _ => to_point item = Err TypeError
  | _ => to_point item = Err AttributeError
  end.
Proof.
  destruct item as [| | | | | |d]; try done.
  unfold to_point, pop, dict_pop, new_point.
  destruct (d !! "id") as [i|] eqn:Hid; [| done].
  rewrite lookup_delete_ne by done.
  destruct (d !! "vectors") as [v|] eqn:Hvec; [| done].
  by destruct (point_ok i v _).
Qed.

Lemma mapM_first_error {A B} (f : A -> result B) good bad rest e :
  Forall (fun x => is_Ok (f x) = true) good ->
  f bad = Err e ->
  mapM f (good ++ bad :: rest) = Err e.
Proof.
  induction 1 as [|x good Hx _ IH]; intros Hbad; cbn.
  - by rewrite Hbad.
  - destruct (f x) as [y|]; [| done]. by rewrite IH.
Qed.

(** X14. The records are transformed in order and the first one that
    fails decides: its exception is the one the transformation raises,
    whatever comes after it, and the one the run raises when the
    connection and the collection setup went through. *)
Theorem first_bad_record_decides fuel s good bad rest e :
  Forall (fun item => is_Ok (to_point item) = true) good ->
  to_point bad = Err e ->
  to_points (VList (good ++ bad :: rest)) = Err e /\
  (ending (connect fuel s) = Done tt ->
   ending (setup_collection (VList (good ++ bad :: rest)) (final (connect fuel s)))
   = Done tt ->
   ending (seed_data fuel (Ok (VList (good ++ bad :: rest))) s) = Raised e).
Proof.
  intros Hgood Hbad.
  assert (to_points (VList (good ++ bad :: rest)) = Err e) as Hto.
  { unfold to_points. cbn [iter]. by apply mapM_first_error. }
  split; [done |].
  rewrite seed_data_run.
  destruct (connect fuel s) as [[evs1 s1] r1]. cbn [events final ending fst snd].
  intros ->.
  destruct (setup_collection _ s1) as [[evs2 s2] r2]. cbn [ending snd].
  intros ->. by rewrite batch_upload_run, Hto.
Qed.


End Properties.

(** ** Two runs on the same data *)

Lemma mapM_ext {A B} (f g : A -> result B) l :
  (forall x, f x = g x) -> mapM f l = mapM g l.
Proof. intros Hfg. induction l as [|x l IH]; [done |]. cbn. by rewrite Hfg, IH. Qed.







(** * The script on the test double *)

Module MockFacts.

Lemma down_after k : after_probes k Mock.down = Mock.down.
Proof. induction k as [|k IH]; [done |]. cbn [after_probes]. exact IH. Qed.

Lemma down_forever k : probe_fails k Mock.down = true.
Proof. unfold probe_fails, probe_result. by rewrite down_after. Qed.

Lemma probe_collections s : Mock.collections (Mock.probe s).2 = Mock.collections s.
Proof.
  unfold Mock.probe. destruct (Mock.unreachable s); [done |].
  by destruct (Mock.refusals s).
Qed.

Lemma has_collections name s :
  Mock.collections (Mock.has name s).2 = Mock.collections s.
Proof. unfold Mock.has. by destruct (Mock.collections s !! name). Qed.

(** Creating a collection stores no point. *)
Lemma create_stored name' name cfg s :
  Mock.stored_in name' (Mock.create name cfg s).2 = Mock.stored_in name' s.
Proof.
  unfold Mock.create, Mock.stored_in.
  destruct (Mock.collections s !! name) as [c|] eqn:Hc; [done |]. cbn.
  destruct (decide (name = name')) as [->|Hne].
  - by rewrite lookup_insert_eq, Hc.
  - by rewrite lookup_insert_ne.
Qed.

(** Writing points changes no configuration. *)
Lemma write_config name' name points s :
  Mock.config_of name' (Mock.write name points s).2 = Mock.config_of name' s.
Proof.
  unfold Mock.write, Mock.config_of.
  destruct (Mock.collections s !! name) as [[cfg stored]|] eqn:Hc; [| done].
  destruct (forallb (Mock.fits cfg) points); [| done]. cbn.
  destruct (decide (name = name')) as [->|Hne].
  - by rewrite lookup_insert_eq, Hc.
  - by rewrite lookup_insert_ne.
Qed.

(** An event of a computed run. *)
Ltac found :=
  vm_compute;
  repeat first [ apply list_elem_of_here | apply list_elem_of_further ].

(** The worked example of the specification: two refused probes, then
    the collection is created for vectors of length 2, the two expected
    points are sent in one call and the count reported is 2. *)
Example worked_example :
  seed_data 5 (Ok Mock.example) (Mock.fresh 2)
  = ([ Print Attempting;
       GetCollections (Err Mock.refused);
       Print (ConnectionFailed Mock.refused); Sleep 3;
       GetCollections (Err Mock.refused);
       Print (ConnectionFailed Mock.refused); Sleep 3;
       GetCollections (Ok tt); Print Connected;
       CollectionExists COLLECTION_NAME (Ok false);
       CreateCollection COLLECTION_NAME
         (models.mkVectorParams 2 models.COSINE) (Ok tt);
       Upsert COLLECTION_NAME Mock.example_points (Ok tt);
       Print (Inserted 2) ],
     Mock.mkServer 0 false
       {[ COLLECTION_NAME :=
            (models.mkVectorParams 2 models.COSINE, Mock.example_points) ]},
     Done tt).
Proof. vm_compute. reflexivity. Qed.

(** *** The theorems at work *)

Lemma points_count_witness :
  exists points answer,
    length points = 2 /\
    List.filter is_upsert (events (seed_data 5 (Ok Mock.example) (Mock.fresh 2)))
    = [Upsert COLLECTION_NAME points answer] /\
    (answer = Ok tt ->
     ending (seed_data 5 (Ok Mock.example) (Mock.fresh 2)) = Done tt /\
     last (events (seed_data 5 (Ok Mock.example) (Mock.fresh 2)))
     = Some (Print (Inserted 2))) /\
    (forall k,
        Print (Inserted k) ∈ events (seed_data 5 (Ok Mock.example) (Mock.fresh 2)) ->
        k = 2).
Proof.
  apply (points_count 5 (Mock.fresh 2)
           [Mock.record 1 0.1 0.2 "A"; Mock.record 2 0.3 0.4 "B"] 2 false).
  - discriminate.
  - vm_compute. reflexivity.
  - vm_compute. reflexivity.
  - vm_compute. reflexivity.
  - intros _. vm_compute. reflexivity.
Defined.



Lemma created_with_first_vector_length_witness :
  CreateCollection COLLECTION_NAME (models.mkVectorParams 2 models.COSINE) (Ok tt)
    ∈ events (seed_data 5 (Ok Mock.example) (Mock.fresh 2)) /\
  exists first rest d vectors,
    Ok Mock.example = Ok (VList (first :: rest)) /\ first = VDict d /\
    d !! "vectors" = Some vectors /\ len vectors = Ok 2.
Proof.
  assert (CreateCollection COLLECTION_NAME
            (models.mkVectorParams 2 models.COSINE) (Ok tt)
            ∈ events (seed_data 5 (Ok Mock.example) (Mock.fresh 2))) as Hin
    by found.
  split; [exact Hin |].
  exact (proj2 (proj2 (proj1 (created_with_first_vector_length
                                5 (Ok Mock.example) (Mock.fresh 2))
                             _ _ _ Hin))).
Defined.

Lemma malformed_record_aborts_witness :
  Forall (fun ev => is_upsert ev = false)
         (events (seed_data 3 (Ok (VList [Mock.record 1 0.1 0.2 "A"; Mock.no_id]))
                            (Mock.fresh 1))) /\
  Mock.stored_in COLLECTION_NAME
    (final (seed_data 3 (Ok (VList [Mock.record 1 0.1 0.2 "A"; Mock.no_id]))
                      (Mock.fresh 1)))
  = Mock.stored_in COLLECTION_NAME (Mock.fresh 1).
Proof.
  assert (existsb lacks_field [Mock.record 1 0.1 0.2 "A"; Mock.no_id] = true)
    as Hbad by (vm_compute; reflexivity).
  destruct (malformed_record_aborts 3 _ (Mock.fresh 1) Hbad)
    as (_ & Hnoup & _ & _ & Hframe).
  split; [exact Hnoup |].
  apply (Hframe _ (Mock.stored_in COLLECTION_NAME)).
  - intros s1. unfold Mock.stored_in. cbn [get_collections Mock.client].
    by rewrite probe_collections.
  - intros name s1. unfold Mock.stored_in. cbn [collection_exists Mock.client].
    by rewrite has_collections.
  - intros name cfg s1. apply create_stored.
Defined.

(** C4 in its strong reading fails.  With the collection absent and a
    second record without [id], the collection is created before the
    transformation raises [KeyError('id')]: the database is not as it
    was. *)
Lemma malformed_record_changes_database :
  ~ malformed_leaves_database
      1 [Mock.record 1 0.1 0.2 "A"; Mock.no_id] (Mock.fresh 0).
Proof.
  intros Hclaim.
  destruct Hclaim as (_ & _ & Hsame); [vm_compute; reflexivity |].
  specialize (Hsame _ (fun s => Mock.config_of COLLECTION_NAME s)).
  cbn beta in Hsame.
  assert (Mock.config_of COLLECTION_NAME
            (final (seed_data 1 (Ok (VList [Mock.record 1 0.1 0.2 "A"; Mock.no_id]))
                              (Mock.fresh 0)))
          = Some (models.mkVectorParams 2 models.COSINE)) as Hafter
    by (vm_compute; reflexivity).
  rewrite Hafter in Hsame.
  assert (Some (models.mkVectorParams 2 models.COSINE)
          = Mock.config_of COLLECTION_NAME (Mock.fresh 0)) as Hbefore.
  { apply Hsame.
    - intros s1. unfold Mock.config_of. cbn [get_collections Mock.client].
      by rewrite probe_collections.
    - intros name s1. unfold Mock.config_of. cbn [collection_exists Mock.client].
      by rewrite has_collections. }
  vm_compute in Hbefore. discriminate Hbefore.
Qed.

Lemma empty_array_fails_witness :
  ending (seed_data 1 (Ok (VList [])) (Mock.seeded 0)) = Raised IndexError.
Proof.
  apply (proj2 (proj2 (empty_array_fails 1 (Mock.seeded 0)))).
  vm_compute. reflexivity.
Defined.

Lemma existing_collection_untouched_witness :
  Forall (fun ev => is_create ev = false)
         (events (seed_data 1 (Ok Mock.example) (Mock.seeded 2))) /\
  Mock.config_of COLLECTION_NAME
    (final (seed_data 1 (Ok Mock.example) (Mock.seeded 2)))
  = Mock.config_of COLLECTION_NAME (Mock.seeded 2).
Proof.
  assert (CollectionExists COLLECTION_NAME (Ok true)
            ∈ events (seed_data 1 (Ok Mock.example) (Mock.seeded 2))) as Hin
    by found.
  destruct (existing_collection_untouched 1 _ _ _ Hin) as (Hnocreate & Hframe).
  split; [exact Hnocreate |].
  apply (Hframe _ (Mock.config_of COLLECTION_NAME)).
  - intros s1. unfold Mock.config_of. cbn [get_collections Mock.client].
    by rewrite probe_collections.
  - intros name s1. unfold Mock.config_of. cbn [collection_exists Mock.client].
    by rewrite has_collections.
  - intros name points s1. apply write_config.
Defined.

Lemma connect_retries_witness :
  (ending (connect 5 (Mock.fresh 2)) = Done tt /\
   attempts (events (connect 5 (Mock.fresh 2))) = 2 + 1 /\
   attempts (events (seed_data 5 (Ok Mock.example) (Mock.fresh 2))) = 2 + 1 /\
   ending (seed_data 5 (Ok Mock.example) (Mock.fresh 2)) ≠ Looping) /\
  (forall fuel,
      ending (connect fuel Mock.down) = Looping /\
      attempts (events (connect fuel Mock.down)) = fuel /\
      attempts (events (seed_data fuel (Ok Mock.example) Mock.down)) = fuel /\
      ending (seed_data fuel (Ok Mock.example) Mock.down) = Looping).
Proof.
  split.
  - apply (proj1 (connect_retries (Mock.fresh 2) (Ok Mock.example)) 2 5).
    + intros k Hk. destruct k as [|[|k]]; [reflexivity | reflexivity | lia].
    + reflexivity.
    + lia.
  - apply (proj2 (connect_retries Mock.down (Ok Mock.example))).
    exact down_forever.
Defined.

Lemma upsert_keeps_order_witness :
  Forall2 (fun item p =>
             to_point item = Ok p /\
             getitem_str item "id" = Ok (models.id p))
          [Mock.record 1 0.1 0.2 "A"; Mock.record 2 0.3 0.4 "B"]
          Mock.example_points.
Proof.
  refine (proj1 (upsert_keeps_order 5 _ (Mock.fresh 2) COLLECTION_NAME
                   Mock.example_points (Ok tt) _)).
  change (VList [Mock.record 1 0.1 0.2 "A"; Mock.record 2 0.3 0.4 "B"])
    with Mock.example.
  found.
Defined.

Lemma vector_size_read_first_witness :
  Forall (fun ev => is_exists ev = false /\ is_write ev = false)
         (events (seed_data 1 (Ok (VList [Mock.no_vectors; Mock.record 1 0.1 0.2 "A"]))
                            (Mock.seeded 2))) /\
  (ending (seed_data 1 (Ok (VList [Mock.no_vectors; Mock.record 1 0.1 0.2 "A"]))
                     (Mock.seeded 2)) = Raised IndexError \/
   ending (seed_data 1 (Ok (VList [Mock.no_vectors; Mock.record 1 0.1 0.2 "A"]))
                     (Mock.seeded 2)) = Raised (KeyError (VStr "vectors"))).
Proof.
  assert (no_first_vectors (VList [Mock.no_vectors; Mock.record 1 0.1 0.2 "A"]) = true)
    as Hno by (vm_compute; reflexivity).
  destruct (vector_size_read_first 1 _ (Mock.seeded 2) Hno)
    as (Hquiet & _ & _ & Hraise).
  split; [exact Hquiet |]. apply Hraise. vm_compute. reflexivity.
Defined.


End MockFacts.

(** * The further properties on the test doubles *)

Module StubFacts.

Lemma existence_check_error_propagates_witness :
  ending (seed_data 1 (Ok Mock.example) Stub.check_times_out) = Raised Stub.timeout /\
  Forall (fun ev => is_write ev = false)
         (events (seed_data 1 (Ok Mock.example) Stub.check_times_out)).
Proof.
  destruct (existence_check_error_propagates
              1 Mock.example Stub.check_times_out 2 Stub.timeout)
    as (Hend & _ & _ & Hquiet).
  - vm_compute. reflexivity.
  - vm_compute. reflexivity.
  - vm_compute. reflexivity.
  - split; [exact Hend | exact Hquiet].
Defined.

Lemma creation_error_propagates_witness :
  ending (seed_data 1 (Ok Mock.example) Stub.creation_times_out) = Raised Stub.timeout /\
  Forall (fun ev => is_upsert ev = false)
         (events (seed_data 1 (Ok Mock.example) Stub.creation_times_out)).
Proof.
  destruct (creation_error_propagates
              1 Mock.example Stub.creation_times_out 2 Stub.timeout)
    as (Hend & _ & Hquiet).
  - vm_compute. reflexivity.
  - vm_compute. reflexivity.
  - vm_compute. reflexivity.
  - vm_compute. reflexivity.
  - split; [exact Hend | exact Hquiet].
Defined.

(** The in-memory server holds the collection for vectors of length 5
    and turns the points of length 2 down. *)
Lemma upsert_error_propagates_witness :
  ending (seed_data 1 (Ok Mock.example) (Mock.seeded 5))
  = Raised (LibraryError "400 bad request") /\
  forall k, Print (Inserted k) ∉ events (seed_data 1 (Ok Mock.example) (Mock.seeded 5)).
Proof.
  destruct (upsert_error_propagates
              1 (Ok Mock.example) (Mock.seeded 5) COLLECTION_NAME
              Mock.example_points (LibraryError "400 bad request"))
    as (Hend & _ & Hnone).
  - MockFacts.found.
  - split; [exact Hend | exact Hnone].
Defined.

Lemma interrupt_leaves_loop_witness :
  ending (seed_data 4 (Ok Mock.example) Stub.interrupted) = Raised KeyboardInterrupt /\
  attempts (events (seed_data 4 (Ok Mock.example) Stub.interrupted)) = 1 + 1 /\
  sleeps (events (seed_data 4 (Ok Mock.example) Stub.interrupted)) = 1.
Proof.
  destruct (interrupt_leaves_loop
              1 Stub.interrupted 4 KeyboardInterrupt (Ok Mock.example))
    as (Hend & Hatt & Hsl & _).
  - intros k Hk. destruct k as [|k]; [reflexivity | lia].
  - reflexivity.
  - reflexivity.
  - lia.
  - split_and!; [exact Hend | exact Hatt | exact Hsl].
Defined.

Lemma more_fuel_same_run_witness :
  seed_data 10 (Ok Mock.example) (Mock.fresh 2)
  = seed_data 3 (Ok Mock.example) (Mock.fresh 2).
Proof.
  apply more_fuel_same_run.
  - vm_compute. discriminate.
  - lia.
Defined.

Lemma other_lengths_not_compared_witness :
  exists points answer,
    Forall2 (fun item p => to_point item = Ok p)
            [Mock.record 1 0.1 0.2 "A"; Stub.wide] points /\
    List.filter is_upsert
      (events (seed_data 1 (Ok (VList [Mock.record 1 0.1 0.2 "A"; Stub.wide]))
                         (Mock.fresh 0)))
    = [Upsert COLLECTION_NAME points answer].
Proof.
  destruct (other_lengths_not_compared
              1 (Mock.fresh 0) (Mock.record 1 0.1 0.2 "A") [Stub.wide] 2 false)
    as (points & answer & Hpoints & Hupsert & _).
  - vm_compute. reflexivity.
  - repeat constructor; vm_compute; reflexivity.
  - vm_compute. reflexivity.
  - vm_compute. reflexivity.
  - intros _. vm_compute. reflexivity.
  - exists points, answer. split; [exact Hpoints | exact Hupsert].
Defined.

Lemma not_an_array_fails_witness :
  ending (seed_data 1 (Ok (Mock.record 1 0.1 0.2 "A")) (Mock.seeded 2))
  = Raised (KeyError (VInt 0)).
Proof.
  destruct (not_an_array_fails 1 (Mock.record 1 0.1 0.2 "A") (Mock.seeded 2))
    as (_ & _ & _ & Hend).
  - intros l. discriminate.
  - apply Hend. vm_compute. reflexivity.
Defined.

Lemma unsized_first_fails_witness :
  ending (seed_data 1 (Ok (VList [Stub.scalar_vectors])) (Mock.seeded 2))
  = Raised TypeError.
Proof.
  destruct (unsized_first_fails 1 (VList [Stub.scalar_vectors]) (Mock.seeded 2))
    as (_ & _ & _ & Hend).
  - vm_compute. reflexivity.
  - apply Hend. vm_compute. reflexivity.
Defined.

Lemma first_bad_record_decides_witness :
  to_points (VList ([Mock.record 1 0.1 0.2 "A"] ++ Mock.no_id :: [Stub.float_id]))
  = Err (KeyError (VStr "id")) /\
  ending (seed_data 1
            (Ok (VList ([Mock.record 1 0.1 0.2 "A"] ++ Mock.no_id :: [Stub.float_id])))
            (Mock.fresh 0))
  = Raised (KeyError (VStr "id")).
Proof.
  destruct (first_bad_record_decides
              1 (Mock.fresh 0) [Mock.record 1 0.1 0.2 "A"] Mock.no_id
              [Stub.float_id] (KeyError (VStr "id")))
    as (Hto & Hend).
  - repeat constructor; vm_compute; reflexivity.
  - vm_compute. reflexivity.
  - split; [exact Hto |]. apply Hend; vm_compute; reflexivity.
Defined.


(** A record that [PointStruct] rejects, after two good ones on a server
    that needs two probes: the run on the in-memory server. *)
Example rejected_record :
  ending (seed_data 2 (Ok (VList [Mock.record 1 0.1 0.2 "A"; Stub.float_id]))
                    (Mock.fresh 1))
  = Raised ValidationError.
Proof. vm_compute. reflexivity. Qed.

End StubFacts.
